(** * Aura score dashboard: scoring, ranking, leaderboard and tier logic

    A shallow embedding of the computational parts of the dashboard:

    - [Dashboard.calculateAuraScore] and
      [InfrastructureComparison.calculateAuraScore], the two copies of the
      scoring function, with the comparator that ranks scored projects;
    - [Dashboard.auraRanks], the rank table built from the ranking, and
      [DashboardLoad.fetchData] with the screen that follows a load;
    - [InfrastructureComparison.renderAuraView], the podium and tier
      slices and the positions printed beside them;
    - [BuilderLeaderboard], the sort comparator, the header and page
      buttons, the pagination and the rank badge.

    Numbers.  The scoring function goes through [Math.log10] and
    [Math.log2], so its numbers are modelled as mathematical reals
    ([R]), with the one non-finite value the function produces,
    [Infinity], added as a constructor of [number]; the inputs are the
    finite numbers a JSON document can carry.  None of the scores
    evaluated below lies near a rounding tie, where the floating-point
    logarithm could round the other way.  The factor [7 / 10] and the
    division are exact here, while in binary64 a ratio that falls on a
    band boundary in exact arithmetic can come out just below it; the
    properties of the bands that hold for every ratio are therefore
    stated on the ratio itself ([bandScore]), which is the number the
    code compares and takes the logarithm of.  The leaderboard and the tier
    arithmetic only add, subtract, compare and scale by decimal
    constants: there numbers are rationals ([Q]) and array indices are
    integers ([Z]), so that those definitions compute. *)

From Stdlib Require Import String.
From Stdlib Require Import Reals Lra Lia ZArith QArith Qround.
From Stdlib Require Lqa.
From Stdlib Require Import List Bool Permutation Sorted.
Import ListNotations.

(* ================================================================== *)
(** * The JavaScript built-ins the program calls *)
(* ================================================================== *)

Module JS.

Section Arrays.
Context {A : Type}.

(** [ToIntegerOrInfinity] followed by the clamping that
    [Array.prototype.slice] applies to each of its bounds: a negative
    index counts from the end. *)
Definition relativeIndex (len k : Z) : Z :=
  if (k <? 0)%Z then Z.max (len + k) 0 else Z.min k len.

(** [arr.slice(start, end)]; [None] for an omitted [end]. *)
Definition slice (arr : list A) (start : Z) (end_ : option Z) : list A :=
  let len := Z.of_nat (length arr) in
  let k := relativeIndex len start in
  let final := match end_ with
               | None => len
               | Some e => relativeIndex len e
               end in
  firstn (Z.to_nat (final - k)) (skipn (Z.to_nat k) arr).

(** [Array.prototype.sort] is stable and, for a consistent comparator,
    returns the sorted permutation.  The comparator is given by the
    test [before a b], which says that [compareFn(a, b) <= 0]; the
    stable sorted permutation is built by insertion from the right. *)
Fixpoint sortInsert (before : A -> A -> bool) (x : A) (l : list A) : list A :=
  match l with
  | [] => [x]
  | y :: l' => if before x y then x :: y :: l' else y :: sortInsert before x l'
  end.

Definition sort (before : A -> A -> bool) (arr : list A) : list A :=
  fold_right (sortInsert before) [] arr.
End Arrays.

(** The property names every plain object inherits from
    [Object.prototype].  Reading one of them off an object that has no
    own property of that name yields a function (an object for
    [__proto__]), never [undefined]; an assignment to [__proto__] of a
    value that is no object stores nothing. *)
Definition objectPrototypeKeys : list string :=
  ["constructor"; "__defineGetter__"; "__defineSetter__"; "hasOwnProperty";
   "__lookupGetter__"; "__lookupSetter__"; "isPrototypeOf";
   "propertyIsEnumerable"; "toString"; "valueOf"; "__proto__";
   "toLocaleString"]%string.

Definition inherited (key : string) : bool :=
  existsb (String.eqb key) objectPrototypeKeys.

Local Open Scope R_scope.

(** The logarithm in base [b] of a positive argument; [Math.log10] and
    [Math.log2] are its instances at [10] and [2]. *)
Definition logb (b x : R) : R := ln x / ln b.
Definition Math_log10 (x : R) : R := logb 10 x.
Definition Math_log2 (x : R) : R := logb 2 x.

(** [Math.round]: the nearest integer, a tie going up. *)
Definition Math_round (x : R) : R := IZR (Int_part (x + / 2)).

End JS.

(* ================================================================== *)
(** * Projects and the aura score *)
(* ================================================================== *)

Inductive Category : Set :=
  | L1 | L2 | L3 | Application | dApp | Stablecoins.

(** The value of [auraScore]: a finite number or [Infinity]. *)
Inductive number : Type :=
  | Num (x : R)
  | Infinity.

(** [interface CryptoProject]; the optional fields are [option]s.  The
    last three fields exist only in the comparison view's declaration
    of the interface; both views read the same JSON objects. *)
Record CryptoProject : Type := mkProject {
  name : string;
  category : Category;
  secondaryCategory : option string;
  amountRaised : R;
  dailyRevenue : option R;
  dailyAppFees : option R;
  annualizedRevenue : option R;
  annualizedAppFees : option R;
  fdv : option R;
  returnVsFunding : option R;
  returnSinceTGE : option R
}.

(** [interface ProjectWithAuraScore extends CryptoProject]. *)
Record ProjectWithAuraScore : Type := mkScored {
  project : CryptoProject;
  auraScore : number
}.

(** What reading [ranks[key]] yields when it is not [undefined]: a
    number stored under the key, or one of the functions and objects
    inherited from [Object.prototype]. *)
Inductive RankEntry : Type :=
  | rankNumber (r : Z)
  | inheritedObject.

(** [x || 0] on an optional number: absent and [0] both give [0]. *)
Definition orZero (x : option R) : R :=
  match x with
  | Some v => v
  | None => 0%R
  end.

(** The comparator of both [sort] calls on scored projects. *)
Definition compareAura (a b : ProjectWithAuraScore) : R :=
  match auraScore a, auraScore b with
  | Infinity, Infinity => 0
  | Infinity, _ => -1
  | _, Infinity => 1
  | Num sa, Num sb => sb - sa
  end%R.

Definition auraBefore (a b : ProjectWithAuraScore) : bool :=
  if Rle_dec (compareAura a b) 0 then true else false.

Module Dashboard.
Local Open Scope R_scope.

Definition isApp (c : Category) : bool :=
  match c with
  | Application | dApp | Stablecoins => true
  | _ => false
  end.

(** [weightedAnnualRevenue], lines 43-54. *)
Definition weightedAnnualRevenue (p : CryptoProject) : R :=
  let annualizedRevenue := orZero (annualizedRevenue p) in
  let annualizedAppFees := orZero (annualizedAppFees p) in
  if isApp (category p) then
    annualizedRevenue * 1
  else
    let nativeRevenue := annualizedRevenue * 1 in
    let ecosystemRevenue := annualizedAppFees * (7 / 10) in
    nativeRevenue + ecosystemRevenue.

(** [rawRatio], line 67. *)
Definition rawRatio (p : CryptoProject) : R :=
  weightedAnnualRevenue p / amountRaised p.

(** The chain of bands, lines 69-93: the score before rounding. *)
Definition bandScore (rawRatio : R) : R :=
  if Rle_dec rawRatio 0 then
    -1000
  else if Rlt_dec rawRatio (1 / 1000) then
    JS.Math_log10 (rawRatio * 1000) * 200 - 800
  else if Rlt_dec rawRatio (1 / 100) then
    JS.Math_log10 (rawRatio * 100) * 150 - 200
  else if Rlt_dec rawRatio (1 / 10) then
    JS.Math_log10 (rawRatio * 10) * 200 + 200
  else if Rlt_dec rawRatio 1 then
    JS.Math_log10 rawRatio * 300 + 700
  else if Rlt_dec rawRatio 10 then
    JS.Math_log2 rawRatio * 400 + 700
  else if Rlt_dec rawRatio 100 then
    JS.Math_log2 (rawRatio / 10) * 600 + 2000
  else
    JS.Math_log2 (rawRatio / 100) * 1000 + 5000.

Definition calculateAuraScore (p : CryptoProject) : ProjectWithAuraScore :=
  let weighted := weightedAnnualRevenue p in
  let auraScore :=
    if Req_dec_T (amountRaised p) 0 then
      if Rlt_dec 0 weighted then Infinity else Num 0
    else
      Num (JS.Math_round (bandScore (rawRatio p))) in
  {| project := p; auraScore := auraScore |}.

(** [sortedProjects], lines 133-142. *)
Definition sortedProjects (projects : list CryptoProject)
  : list ProjectWithAuraScore :=
  JS.sort auraBefore (map calculateAuraScore projects).

(** The [ranks] object, lines 130-148: a plain JavaScript object used
    as a map from project names to numbers.  [Ranks] holds its own
    properties; [readRank] is the lookup, which also finds what the
    object inherits. *)
Definition Ranks : Type := string -> option Z.

(** [{}]: no own property. *)
Definition noRanks : Ranks := fun _ => None.

(** [ranks[key] = value] for a number [value]: a later assignment to
    the same key wins, and an assignment to [__proto__] stores
    nothing. *)
Definition setRank (ranks : Ranks) (key : string) (value : Z) : Ranks :=
  if String.eqb key "__proto__" then ranks
  else fun k => if String.eqb k key then Some value else ranks k.

(** [ranks[key]]: the own property, else the inherited one, else
    [undefined]. *)
Definition readRank (ranks : Ranks) (key : string) : option RankEntry :=
  match ranks key with
  | Some value => Some (rankNumber value)
  | None => if JS.inherited key then Some inheritedObject else None
  end.

(** [sorted.forEach((project, index) => { ranks[project.name] = index + 1 })],
    with [index] the index of the head of [sorted]. *)
Fixpoint assignRanks (sorted : list ProjectWithAuraScore) (index : Z)
    (ranks : Ranks) : Ranks :=
  match sorted with
  | [] => ranks
  | p :: rest =>
      assignRanks rest (index + 1) (setRank ranks (name (project p)) (index + 1))
  end.

(** The object handed to [setAuraRanks]; [None] stands for a response
    without a [projects] field, which leaves [ranks] empty. *)
Definition auraRanks (projects : option (list CryptoProject)) : Ranks :=
  match projects with
  | Some ps => assignRanks (sortedProjects ps) 0 noRanks
  | None => noRanks
  end.

End Dashboard.

Module InfrastructureComparison.
Local Open Scope R_scope.

(** The second copy of the scoring function, lines 119-185. *)
Definition calculateAuraScore (project : CryptoProject) : ProjectWithAuraScore :=
  let annualizedRevenue := orZero (annualizedRevenue project) in
  let annualizedAppFees := orZero (annualizedAppFees project) in
  let amountRaised := amountRaised project in
  let weightedAnnualRevenue :=
    match category project with
    | Application | dApp | Stablecoins => annualizedRevenue * 1
    | _ =>
        let nativeRevenue := annualizedRevenue * 1 in
        let ecosystemRevenue := annualizedAppFees * (7 / 10) in
        nativeRevenue + ecosystemRevenue
    end in
  let auraScore :=
    if Req_dec_T amountRaised 0 then
      if Rlt_dec 0 weightedAnnualRevenue then Infinity else Num 0
    else
      let rawRatio := weightedAnnualRevenue / amountRaised in
      let auraScore :=
        if Rle_dec rawRatio 0 then
          -1000
        else if Rlt_dec rawRatio (1 / 1000) then
          JS.Math_log10 (rawRatio * 1000) * 200 - 800
        else if Rlt_dec rawRatio (1 / 100) then
          JS.Math_log10 (rawRatio * 100) * 150 - 200
        else if Rlt_dec rawRatio (1 / 10) then
          JS.Math_log10 (rawRatio * 10) * 200 + 200
        else if Rlt_dec rawRatio 1 then
          JS.Math_log10 rawRatio * 300 + 700
        else if Rlt_dec rawRatio 10 then
          JS.Math_log2 rawRatio * 400 + 700
        else if Rlt_dec rawRatio 100 then
          JS.Math_log2 (rawRatio / 10) * 600 + 2000
        else
          JS.Math_log2 (rawRatio / 100) * 1000 + 5000 in
      Num (JS.Math_round auraScore) in
  {| project := project; auraScore := auraScore |}.

(** [getProjectsWithAuraScores], lines 187-199, on loaded data. *)
Definition getProjectsWithAuraScores (projects : list CryptoProject)
  : list ProjectWithAuraScore :=
  JS.sort auraBefore (map calculateAuraScore projects).

(** The slices computed at the head of [renderAuraView], lines 247-261. *)
Record AuraView : Type := mkAuraView {
  topThree : list ProjectWithAuraScore;
  remaining : list ProjectWithAuraScore;
  topTier : list ProjectWithAuraScore;
  midTier : list ProjectWithAuraScore;
  cursedTier : list ProjectWithAuraScore
}.

(** [Math.max(1, Math.floor(totalRemaining * 0.2))]. *)
Definition tierSize (totalRemaining : Z) : Z :=
  Z.max 1 (Qfloor (inject_Z totalRemaining * (2 # 10))).

Definition renderAuraView (projectsWithAura : list ProjectWithAuraScore)
  : AuraView :=
  let topThree := JS.slice projectsWithAura 0 (Some 3%Z) in
  let remaining := JS.slice projectsWithAura 3 None in
  let totalRemaining := Z.of_nat (length remaining) in
  let topTierSize := tierSize totalRemaining in
  let cursedTierSize := tierSize totalRemaining in
  let midTierSize := (totalRemaining - topTierSize - cursedTierSize)%Z in
  let topTier := JS.slice remaining 0 (Some topTierSize) in
  let midTier :=
    JS.slice remaining topTierSize (Some (topTierSize + midTierSize)%Z) in
  let cursedTier := JS.slice remaining (topTierSize + midTierSize) None in
  mkAuraView topThree remaining topTier midTier cursedTier.

(** The [position] shown beside row [index] of each tier, lines 398,
    453 and 508. *)
Definition topTierPosition (index : Z) : Z := (index + 4)%Z.

Definition midTierPosition (view : AuraView) (index : Z) : Z :=
  (index + 4 + Z.of_nat (length (topTier view)))%Z.

Definition cursedTierPosition (view : AuraView) (index : Z) : Z :=
  (index + 4 + Z.of_nat (length (topTier view))
   + Z.of_nat (length (midTier view)))%Z.

(** What every view prints for a score:
    [auraScore === Infinity ? infinity-sign : formatAuraScore(Math.round(auraScore))].
    [None] is the sign for infinity, [Some x] the number handed to the
    formatter. *)
Definition shownAura (p : ProjectWithAuraScore) : option R :=
  match auraScore p with
  | Infinity => None
  | Num s => Some (JS.Math_round s)
  end.

End InfrastructureComparison.

(* ================================================================== *)
(** * The builder leaderboard *)
(* ================================================================== *)

Module BuilderLeaderboard.
Local Open Scope Q_scope.

(** The fields of [BuilderRevenue] the table reads.  An absent
    [builderName] is the empty string: both are falsy under [||]. *)
Record BuilderRevenue : Type := mkBuilder {
  builderCode : string;
  builderName : string;
  totalRevenue : Q
}.

Inductive SortField : Set :=
  | F_rank | F_builderName | F_totalRevenue | F_auraRank.

Inductive SortDirection : Set :=
  | asc | desc.

(** The component's state: the three [useState] cells. *)
Record State : Type := mkState {
  sortField : SortField;
  sortDirection : SortDirection;
  currentPage : Z
}.

Definition initialState : State := mkState F_totalRevenue desc 1.

Definition itemsPerPage : Z := 10.

Definition SortField_eqb (f g : SortField) : bool :=
  match f, g with
  | F_rank, F_rank
  | F_builderName, F_builderName
  | F_totalRevenue, F_totalRevenue
  | F_auraRank, F_auraRank => true
  | _, _ => false
  end.

(** [handleSort], lines 48-56. *)
Definition handleSort (field : SortField) (st : State) : State :=
  if SortField_eqb (sortField st) field then
    mkState (sortField st)
            (match sortDirection st with asc => desc | desc => asc end)
            1
  else
    mkState field desc 1.

(** The values the comparator's [any]-typed variables hold. *)
Inductive any : Type :=
  | anyNumber (q : Q)
  | anyString (s : string)
  | anyObject.

(** [s || t] on strings. *)
Definition orString (s t : string) : string :=
  match s with
  | EmptyString => t
  | _ => s
  end.

(** [auraRanks[key] || 999]: the default replaces [undefined] and [0];
    an inherited function or object is truthy and stays. *)
Definition rankOr999 (auraRanks : string -> option RankEntry) (key : string)
  : any :=
  match auraRanks key with
  | Some (rankNumber r) =>
      if (r =? 0)%Z then anyNumber 999 else anyNumber (inject_Z r)
  | Some inheritedObject => anyObject
  | None => anyNumber 999
  end.

Section Table.
(** [String.prototype.localeCompare] depends on the host's locale. *)
Variable localeCompare : string -> string -> Z.
(** The lookup [auraRanks[key]] in the object passed as a prop. *)
Variable auraRanks : string -> option RankEntry.

(** The comparator passed to [sort], lines 58-88. *)
Definition compareBuilders (st : State) (a b : BuilderRevenue) : Q :=
  match sortField st with
  | F_rank =>
      let aValue := totalRevenue a in
      let bValue := totalRevenue b in
      let effectiveDirection :=
        match sortDirection st with asc => desc | desc => asc end in
      match effectiveDirection with
      | asc => aValue - bValue
      | desc => bValue - aValue
      end
  | field =>
      let (aValue, bValue) :=
        match field with
        | F_builderName =>
            (anyString (orString (builderName a) (builderCode a)),
             anyString (orString (builderName b) (builderCode b)))
        | F_auraRank =>
            (rankOr999 auraRanks (orString (builderName a) (builderCode a)),
             rankOr999 auraRanks (orString (builderName b) (builderCode b)))
        | _ =>
            (anyNumber (totalRevenue a), anyNumber (totalRevenue b))
        end in
      match aValue, bValue with
      | anyString sa, anyString sb =>
          match sortDirection st with
          | asc => inject_Z (localeCompare sa sb)
          | desc => inject_Z (localeCompare sb sa)
          end
      | anyNumber x, anyNumber y =>
          match sortDirection st with
          | asc => x - y
          | desc => y - x
          end
      | _, _ => 0 (* a difference with an operand that is no number is
                     NaN, read as 0 by sort *)
      end
  end.

Definition builderBefore (st : State) (a b : BuilderRevenue) : bool :=
  Qle_bool (compareBuilders st a b) 0.

Definition sortedBuilders (st : State) (builders : list BuilderRevenue)
  : list BuilderRevenue :=
  JS.sort (builderBefore st) builders.

(** [Math.ceil(sortedBuilders.length / itemsPerPage)]. *)
Definition totalPages (st : State) (builders : list BuilderRevenue) : Z :=
  Qceiling (inject_Z (Z.of_nat (length (sortedBuilders st builders)))
            / inject_Z itemsPerPage).

Definition paginatedBuilders (st : State) (builders : list BuilderRevenue)
  : list BuilderRevenue :=
  JS.slice (sortedBuilders st builders)
           ((currentPage st - 1) * itemsPerPage)
           (Some (currentPage st * itemsPerPage)%Z).

(** The number in the rank badge of row [index] of the page, line 154. *)
Definition rank (st : State) (index : Z) : Z :=
  ((currentPage st - 1) * itemsPerPage + index + 1)%Z.

(** The pagination bar is rendered when [totalPages > 1]; its Next
    button carries [disabled={currentPage === totalPages}]. *)
Definition paginationShown (st : State) (builders : list BuilderRevenue) : bool :=
  (1 <? totalPages st builders)%Z.

Definition nextDisabled (st : State) (builders : list BuilderRevenue) : bool :=
  (currentPage st =? totalPages st builders)%Z.

(** The Previous button, lines 272-278. *)
Definition previousDisabled (st : State) : bool :=
  (currentPage st =? 1)%Z.

Definition clickPrevious (st : State) : State :=
  mkState (sortField st) (sortDirection st) (Z.max 1 (currentPage st - 1)).

(** The handler of the Next button, line 283. *)
Definition clickNext (st : State) (builders : list BuilderRevenue) : State :=
  mkState (sortField st) (sortDirection st)
          (Z.min (totalPages st builders) (currentPage st + 1)).

(** "Showing [from] to [to] of [builders.length] builders", line 269. *)
Definition showingFrom (st : State) : Z :=
  ((currentPage st - 1) * itemsPerPage + 1)%Z.

Definition showingTo (st : State) (builders : list BuilderRevenue) : Z :=
  Z.min (currentPage st * itemsPerPage) (Z.of_nat (length builders)).

(** The aura-rank cell, lines 237-256: what the badge prints when the
    lookup is truthy, [None] for the "N/A" text. *)
Definition auraBadge (b : BuilderRevenue) : option RankEntry :=
  match auraRanks (orString (builderName b) (builderCode b)) with
  | Some (rankNumber r) => if (r =? 0)%Z then None else Some (rankNumber r)
  | Some inheritedObject => Some inheritedObject
  | None => None
  end.

(** What the user can do to the table: click a sortable header, or one
    of the two page buttons.  The buttons exist only while the
    pagination bar is rendered, and a disabled button takes no click.
    The Rank header carries no handler, so [ClickHeader F_rank] does
    not occur in the rendered table. *)
Inductive Event : Set :=
  | ClickHeader (field : SortField)
  | ClickPrevious
  | ClickNext.

Definition dispatch (builders : list BuilderRevenue) (st : State) (e : Event)
  : State :=
  match e with
  | ClickHeader field => handleSort field st
  | ClickPrevious =>
      if paginationShown st builders && negb (previousDisabled st)
      then clickPrevious st else st
  | ClickNext =>
      if paginationShown st builders && negb (nextDisabled st builders)
      then clickNext st builders else st
  end.

Definition run (builders : list BuilderRevenue) (events : list Event) : State :=
  fold_left (dispatch builders) events initialState.
End Table.

End BuilderLeaderboard.

(* ================================================================== *)
(** * Loading the dashboard *)
(* ================================================================== *)

Module DashboardLoad.

(** What a [fetch] comes to: the promise rejects, or it resolves to a
    response with its [ok] flag and a body.  [json()] rejects on a body
    that does not parse ([None]); a body that parses is [null]
    ([Some None]) or an object of the declared type. *)
Inductive Fetched (A : Type) : Type :=
  | Rejects
  | Responds (ok : bool) (json : option (option A)).
Arguments Rejects {A}.
Arguments Responds {A} ok json.

(** The fields of the comparison response that the dashboard reads. *)
Record ComparisonData : Type := mkComparison {
  projects : option (list CryptoProject);
  lastUpdated : string
}.

Section Load.
(** [DashboardData] is declared outside these files. *)
Variable DashboardData : Type.

(** The [useState] cells of [Dashboard] that [fetchData] writes. *)
Record State : Type := mkState {
  dashboardData : option DashboardData;
  auraRanks : Dashboard.Ranks;
  loading : bool;
  error : option string
}.

Definition initialState : State := mkState None Dashboard.noRanks true None.

Definition setLoading (st : State) (v : bool) : State :=
  mkState (dashboardData st) (auraRanks st) v (error st).
Definition setError (st : State) (v : option string) : State :=
  mkState (dashboardData st) (auraRanks st) (loading st) v.
Definition setDashboardData (st : State) (v : option DashboardData) : State :=
  mkState v (auraRanks st) (loading st) (error st).
Definition setAuraRanks (st : State) (v : Dashboard.Ranks) : State :=
  mkState (dashboardData st) v (loading st) (error st).

(** The [try] block of [fetchData], lines 110-149: the state it leaves
    and whether it ran to its end ([false]: something was thrown).
    [Promise.all] rejects when either fetch does; the two [ok] tests and
    the two [json()] calls come before the first setter; reading
    [projects] off a [null] body throws after [setDashboardData]. *)
Definition tryBlock (revenue : Fetched DashboardData)
    (comparison : Fetched ComparisonData) (st : State) : State * bool :=
  match revenue, comparison with
  | Responds revenueOk revenueBody, Responds comparisonOk comparisonBody =>
      if negb revenueOk then (st, false)
      else if negb comparisonOk then (st, false)
      else
        match revenueBody with
        | None => (st, false)
        | Some revenueData =>
            match comparisonBody with
            | None => (st, false)
            | Some comparisonData =>
                let st := setDashboardData st revenueData in
                match comparisonData with
                | None => (st, false)
                | Some data =>
                    (setAuraRanks st (Dashboard.auraRanks (projects data)), true)
                end
            end
        end
  | _, _ => (st, false)
  end.

(** [fetchData], lines 106-157, run to completion on the outcome of
    its two requests. *)
Definition fetchData (revenue : Fetched DashboardData)
    (comparison : Fetched ComparisonData) (st : State) : State :=
  let st := setLoading st true in
  let st := setError st None in
  let (st, completed) := tryBlock revenue comparison st in
  let st :=
    if completed then st
    else setError st (Some "Failed to load data. Please try again."%string) in
  setLoading st false.

(** What [Dashboard] returns, lines 162-187: the spinner, the error
    screen with its message, or the page built from the data. *)
Inductive Screen : Type :=
  | Spinner
  | ErrorScreen (message : string)
  | Page (data : DashboardData).

Definition render (st : State) : Screen :=
  if loading st then Spinner
  else
    match error st, dashboardData st with
    | Some (String c rest), _ => ErrorScreen (String c rest)
    | _, None => ErrorScreen "No data available"
    | _, Some data => Page data
    end.
End Load.

End DashboardLoad.

(* ================================================================== *)
(** * Sample inputs *)
(* ================================================================== *)

Module Samples.
Local Open Scope R_scope.

(** A project as the comparison endpoint sends it, with the fields the
    score reads filled in. *)
Definition sampleProject (name : string) (category : Category)
    (amountRaised annualizedRevenue annualizedAppFees : R) : CryptoProject :=
  mkProject name category None amountRaised None None
            (Some annualizedRevenue) (Some annualizedAppFees) None None None.

(** A layer-1 chain with ecosystem fees: ratio [0.17]. *)
Definition chain170 : CryptoProject := sampleProject "Chain" L1 1000 100 100.

(** An application with ignored fees: ratio [0.1], on a band boundary. *)
Definition appTenth : CryptoProject := sampleProject "App" Application 500 50 1000.

(** Ratios [9.9] and [10]: either side of the boundary at [10]. *)
Definition ratio9_9 : CryptoProject := sampleProject "Below" Application 10 99 0.
Definition ratio10 : CryptoProject := sampleProject "At" Application 10 100 0.

(** Ratio [0.001]: the lower end of the second positive band. *)
Definition ratio1e3 : CryptoProject := sampleProject "Low" Application 1000 1 0.

(** Ratios [0.0001] and [0.000001]: inside the lowest positive band. *)
Definition ratio1e4 : CryptoProject := sampleProject "Small" Application 10000 1 0.
Definition ratio1e6 : CryptoProject := sampleProject "Tiny" Application 1000000 1 0.

(** Funded but without revenue, and the two bootstrapped cases. *)
Definition noRevenue : CryptoProject := sampleProject "Idle" L2 1000 0 0.
Definition bootstrapped : CryptoProject := sampleProject "Boot" dApp 0 100 0.
Definition bootstrappedIdle : CryptoProject := sampleProject "Zero" L1 0 0 0.

(** The application of [appTenth] without its fees. *)
Definition appTenthNoFees : CryptoProject :=
  mkProject "App" Application None 500 None None (Some 50) None None None None.

(** A ranking of seven, best first, with the scores of its projects. *)
Definition sevenRanked : list ProjectWithAuraScore :=
  [mkScored bootstrapped Infinity; mkScored ratio9_9 (Num 2023);
   mkScored ratio10 (Num 2000); mkScored chain170 (Num 469);
   mkScored appTenth (Num 400); mkScored ratio1e4 (Num (-1000));
   mkScored ratio1e6 (Num (-1400))].

(** Leaderboard inputs: two builders, the lower earner holding the
    better aura rank, and a table of 25 builders. *)
Definition lowEarner : BuilderLeaderboard.BuilderRevenue :=
  BuilderLeaderboard.mkBuilder "LOW001" "Low" 1.
Definition highEarner : BuilderLeaderboard.BuilderRevenue :=
  BuilderLeaderboard.mkBuilder "HIGH01" "High" 2.

(** A builder without a display name and without an aura rank. *)
Definition newcomer : BuilderLeaderboard.BuilderRevenue :=
  BuilderLeaderboard.mkBuilder "NEW001" "" 3.

(** Lookups in the plain object [{ Low: 1, High: 2 }]. *)
Definition sampleRanks (key : string) : option RankEntry :=
  Dashboard.readRank
    (Dashboard.setRank (Dashboard.setRank Dashboard.noRanks "Low" 1) "High" 2)
    key.

(** A builder without a display name whose code is the name of an
    inherited property. *)
Definition inheritedName : BuilderLeaderboard.BuilderRevenue :=
  BuilderLeaderboard.mkBuilder "constructor" "" 4.

Definition twentyFive : list BuilderLeaderboard.BuilderRevenue :=
  map (fun k => BuilderLeaderboard.mkBuilder "CODE" "" (inject_Z (Z.of_nat k)))
      (seq 1 25).

(** A comparison by code units, standing in for the host's
    [localeCompare]. *)
Definition codeUnitCompare (s t : string) : Z :=
  match String.compare s t with
  | Eq => 0
  | Lt => -1
  | Gt => 1
  end%Z.

End Samples.

(* ================================================================== *)
(** * Facts about the built-ins *)
(* ================================================================== *)

Module JSFacts.
Import JS.
Local Open Scope R_scope.

(** ** Rounding *)

Lemma Math_round_unique (x : R) (n : Z) :
  IZR n - / 2 <= x < IZR n + / 2 -> Math_round x = IZR n.
Proof.
  intros [Hlo Hhi]. unfold Math_round. f_equal. symmetry.
  apply Int_part_spec. lra.
Qed.

Lemma Math_round_IZR (n : Z) : Math_round (IZR n) = IZR n.
Proof. apply Math_round_unique. lra. Qed.

Lemma Int_part_mono (x y : R) : x <= y -> (Int_part x <= Int_part y)%Z.
Proof.
  intros Hxy.
  destruct (base_Int_part x) as [Hx _].
  destruct (base_Int_part y) as [_ Hy].
  destruct (Z.le_gt_cases (Int_part x) (Int_part y)) as [H | H]; [exact H |].
  exfalso.
  assert (Hz : (Int_part y + 1 <= Int_part x)%Z) by lia.
  apply IZR_le in Hz. rewrite plus_IZR in Hz. lra.
Qed.

Lemma Math_round_mono (x y : R) : x <= y -> Math_round x <= Math_round y.
Proof.
  intros Hxy. unfold Math_round. apply IZR_le, Int_part_mono. lra.
Qed.

(** ** Logarithms *)

Lemma ln_le_mono (x y : R) : 0 < x -> x <= y -> ln x <= ln y.
Proof.
  intros Hx [Hlt | Heq].
  - left. now apply ln_increasing.
  - subst. right. reflexivity.
Qed.

Lemma ln_pos (b : R) : 1 < b -> 0 < ln b.
Proof.
  intros Hb. rewrite <- ln_1. apply ln_increasing; lra.
Qed.

Lemma ln_2_pos : 0 < ln 2.
Proof. apply ln_pos. lra. Qed.

Lemma ln_10_pos : 0 < ln 10.
Proof. apply ln_pos. lra. Qed.

Lemma ln_div (x y : R) : 0 < x -> 0 < y -> ln (x / y) = ln x - ln y.
Proof.
  intros Hx Hy. unfold Rdiv.
  rewrite ln_mult; [| exact Hx | now apply Rinv_0_lt_compat].
  rewrite ln_Rinv by exact Hy. lra.
Qed.

Lemma logb_mono (b x y : R) : 1 < b -> 0 < x -> x <= y -> logb b x <= logb b y.
Proof.
  intros Hb Hx Hxy. unfold logb.
  apply Rmult_le_compat_r.
  - left. apply Rinv_0_lt_compat. now apply ln_pos.
  - now apply ln_le_mono.
Qed.

Lemma logb_lt (b x y : R) : 1 < b -> 0 < x -> x < y -> logb b x < logb b y.
Proof.
  intros Hb Hx Hxy. unfold logb.
  apply Rmult_lt_compat_r.
  - apply Rinv_0_lt_compat. now apply ln_pos.
  - now apply ln_increasing.
Qed.

Lemma logb_1 (b : R) : logb b 1 = 0.
Proof. unfold logb. rewrite ln_1. lra. Qed.

Lemma logb_base (b : R) : 1 < b -> logb b b = 1.
Proof.
  intros Hb. unfold logb. apply Rinv_r.
  apply Rgt_not_eq. now apply ln_pos.
Qed.

Lemma logb_mult (b x y : R) :
  0 < x -> 0 < y -> logb b (x * y) = logb b x + logb b y.
Proof. intros Hx Hy. unfold logb. rewrite ln_mult by assumption. lra. Qed.

Lemma logb_div (b x y : R) :
  0 < x -> 0 < y -> logb b (x / y) = logb b x - logb b y.
Proof. intros Hx Hy. unfold logb. rewrite ln_div by assumption. lra. Qed.

Lemma logb_pow (b : R) (n : nat) : 1 < b -> logb b (b ^ n) = INR n.
Proof.
  intros Hb. unfold logb. rewrite ln_pow by lra.
  field. apply Rgt_not_eq. now apply ln_pos.
Qed.

(** Rational bounds on a logarithm of a positive rational [N / D], read
    off an inequality between integer powers. *)
Lemma pow_ineq_ln (b N D : Z) (p m q : nat) :
  (1 < b)%Z -> (0 < N)%Z -> (0 < D)%Z ->
  ln (IZR b ^ p * IZR D ^ q) = INR p * ln (IZR b) + INR q * ln (IZR D) /\
  ln (IZR b ^ m * IZR N ^ q) = INR m * ln (IZR b) + INR q * ln (IZR N).
Proof.
  intros Hb HN HD.
  apply IZR_lt in Hb, HN, HD.
  split; (rewrite ln_mult by (apply pow_lt; lra));
    rewrite !ln_pow by lra; reflexivity.
Qed.

Lemma logb_lower (b N D : Z) (p m q : nat) :
  (1 < b)%Z -> (0 < N)%Z -> (0 < D)%Z ->
  (b ^ Z.of_nat p * D ^ Z.of_nat q <= b ^ Z.of_nat m * N ^ Z.of_nat q)%Z ->
  INR p - INR m <= INR q * logb (IZR b) (IZR N / IZR D).
Proof.
  intros Hb HN HD H.
  destruct (pow_ineq_ln b N D p m q Hb HN HD) as [E1 E2].
  apply IZR_le in H. rewrite !mult_IZR, <- !pow_IZR in H.
  apply IZR_lt in Hb, HN, HD.
  apply ln_le_mono in H;
    [| apply Rmult_lt_0_compat; apply pow_lt; lra].
  rewrite E1, E2 in H.
  unfold logb. rewrite ln_div by lra.
  pose proof (ln_pos (IZR b) Hb) as Hl.
  apply Rmult_le_reg_r with (r := ln (IZR b)); [exact Hl |].
  replace (INR q * ((ln (IZR N) - ln (IZR D)) / ln (IZR b)) * ln (IZR b))
    with (INR q * (ln (IZR N) - ln (IZR D))) by (field; lra).
  lra.
Qed.

Lemma logb_upper (b N D : Z) (p m q : nat) :
  (1 < b)%Z -> (0 < N)%Z -> (0 < D)%Z ->
  (b ^ Z.of_nat m * N ^ Z.of_nat q < b ^ Z.of_nat p * D ^ Z.of_nat q)%Z ->
  INR q * logb (IZR b) (IZR N / IZR D) < INR p - INR m.
Proof.
  intros Hb HN HD H.
  destruct (pow_ineq_ln b N D p m q Hb HN HD) as [E1 E2].
  apply IZR_lt in H. rewrite !mult_IZR, <- !pow_IZR in H.
  apply IZR_lt in Hb, HN, HD.
  apply ln_increasing in H;
    [| apply Rmult_lt_0_compat; apply pow_lt; lra].
  rewrite E1, E2 in H.
  unfold logb. rewrite ln_div by lra.
  pose proof (ln_pos (IZR b) Hb) as Hl.
  apply Rmult_lt_reg_r with (r := ln (IZR b)); [exact Hl |].
  replace (INR q * ((ln (IZR N) - ln (IZR D)) / ln (IZR b)) * ln (IZR b))
    with (INR q * (ln (IZR N) - ln (IZR D))) by (field; lra).
  lra.
Qed.

End JSFacts.

(* ================================================================== *)
(** * Facts about [sort] and [slice] *)
(* ================================================================== *)

Module ArrayFacts.
Import JS.

Section Sorting.
Context {A : Type}.
Variable before : A -> A -> bool.

Local Abbreviation R := (fun a b : A => before a b = true).

Lemma sortInsert_perm (x : A) (l : list A) :
  Permutation (sortInsert before x l) (x :: l).
Proof.
  induction l as [| y l IH]; cbn.
  - apply Permutation_refl.
  - destruct (before x y).
    + apply Permutation_refl.
    + eapply perm_trans; [apply perm_skip, IH | apply perm_swap].
Qed.

Lemma sort_perm (l : list A) : Permutation (sort before l) l.
Proof.
  induction l as [| x l IH]; cbn.
  - apply perm_nil.
  - eapply perm_trans; [apply sortInsert_perm | apply perm_skip, IH].
Qed.

Lemma sort_length (l : list A) : length (sort before l) = length l.
Proof. apply Permutation_length, sort_perm. Qed.

Hypothesis before_total : forall a b, before a b = false -> before b a = true.
Hypothesis before_trans :
  forall a b c, before a b = true -> before b c = true -> before a c = true.

Lemma sortInsert_sorted (x : A) (l : list A) :
  StronglySorted R l -> StronglySorted R (sortInsert before x l).
Proof.
  induction 1 as [| y l Hs IH Hy]; cbn.
  - constructor; constructor.
  - destruct (before x y) eqn:Hxy.
    + constructor; [constructor; assumption |].
      constructor; [exact Hxy |].
      eapply Forall_impl; [| exact Hy].
      intros z Hz. exact (before_trans _ _ _ Hxy Hz).
    + constructor; [exact IH |].
      apply Forall_forall. intros z Hz.
      apply (Permutation_in _ (sortInsert_perm x l)) in Hz.
      destruct Hz as [<- | Hz].
      * apply before_total, Hxy.
      * rewrite Forall_forall in Hy. now apply Hy.
Qed.

Lemma sort_sorted (l : list A) : StronglySorted R (sort before l).
Proof.
  induction l as [| x l IH]; cbn.
  - constructor.
  - apply sortInsert_sorted, IH.
Qed.
End Sorting.

Section Positions.
Context {A : Type}.
Variable R : A -> A -> Prop.

(** In a sorted list an earlier position is related to a later one. *)
Lemma StronglySorted_nth_error (l : list A) :
  StronglySorted R l ->
  forall i j a b,
    (i < j)%nat -> nth_error l i = Some a -> nth_error l j = Some b -> R a b.
Proof.
  induction 1 as [| x l Hs IH Hx]; intros i j a b Hij Hi Hj.
  - destruct i; discriminate.
  - destruct j as [| j]; [lia |].
    cbn in Hj. destruct i as [| i]; cbn in Hi.
    + injection Hi as <-. rewrite Forall_forall in Hx.
      apply Hx. eapply nth_error_In, Hj.
    + apply (IH i j); [lia | assumption | assumption].
Qed.
End Positions.

End ArrayFacts.

(* ================================================================== *)
(** * The aura score *)
(* ================================================================== *)

Module AuraFacts.
Import JS JSFacts Dashboard.
Local Open Scope R_scope.

(** ** The band taken at a given ratio *)

Ltac band_cases :=
  unfold bandScore;
  repeat match goal with
         | |- context [Rle_dec ?a ?b] => destruct (Rle_dec a b); try lra
         | |- context [Rlt_dec ?a ?b] => destruct (Rlt_dec a b); try lra
         end.

Lemma bandScore_nonpos r : r <= 0 -> bandScore r = -1000.
Proof. intros; band_cases. Qed.

Lemma bandScore_band1 r :
  0 < r < 1 / 1000 -> bandScore r = Math_log10 (r * 1000) * 200 - 800.
Proof. intros; band_cases. Qed.

Lemma bandScore_band2 r :
  1 / 1000 <= r < 1 / 100 -> bandScore r = Math_log10 (r * 100) * 150 - 200.
Proof. intros; band_cases. Qed.

Lemma bandScore_band3 r :
  1 / 100 <= r < 1 / 10 -> bandScore r = Math_log10 (r * 10) * 200 + 200.
Proof. intros; band_cases. Qed.

Lemma bandScore_band4 r :
  1 / 10 <= r < 1 -> bandScore r = Math_log10 r * 300 + 700.
Proof. intros; band_cases. Qed.

Lemma bandScore_band5 r :
  1 <= r < 10 -> bandScore r = Math_log2 r * 400 + 700.
Proof. intros; band_cases. Qed.

Lemma bandScore_band6 r :
  10 <= r < 100 -> bandScore r = Math_log2 (r / 10) * 600 + 2000.
Proof. intros; band_cases. Qed.

Lemma bandScore_band7 r :
  100 <= r -> bandScore r = Math_log2 (r / 100) * 1000 + 5000.
Proof. intros; band_cases. Qed.

(** ** The score of a funded and of a bootstrapped project *)

Lemma auraScore_funded p :
  amountRaised p <> 0 ->
  auraScore (calculateAuraScore p) = Num (Math_round (bandScore (rawRatio p))).
Proof.
  intros H. unfold calculateAuraScore. cbn.
  destruct (Req_dec_T (amountRaised p) 0); [contradiction | reflexivity].
Qed.

Lemma auraScore_bootstrapped p :
  amountRaised p = 0 ->
  auraScore (calculateAuraScore p) =
  if Rlt_dec 0 (weightedAnnualRevenue p) then Infinity else Num 0.
Proof.
  intros H. unfold calculateAuraScore. cbn.
  destruct (Req_dec_T (amountRaised p) 0); [reflexivity | contradiction].
Qed.

(** ** Values of the logarithms at the ratios used below *)

Lemma log10_tenth : Math_log10 (1 / 10) = -1.
Proof.
  unfold Math_log10. rewrite logb_div by lra.
  rewrite logb_1, logb_base by lra. lra.
Qed.

Lemma log10_thousandth : Math_log10 (1 / 1000) = -3.
Proof.
  unfold Math_log10. rewrite logb_div by lra.
  replace 1000 with (10 ^ 3) by lra.
  rewrite logb_1, logb_pow by lra. simpl. lra.
Qed.

Lemma log10_17_100 : - (27 / 35) <= Math_log10 (17 / 100) < - (10 / 13).
Proof.
  unfold Math_log10. split.
  - pose proof (logb_lower 10 17 100 0 27 35) as H.
    rewrite !INR_IZR_INZ in H. cbn [Z.of_nat Pos.of_succ_nat Pos.succ] in H.
    assert (0 - 27 <= 35 * logb 10 (17 / 100)) as H'
      by (apply H; [lia | lia | lia | vm_compute; discriminate]).
    lra.
  - pose proof (logb_upper 10 17 100 0 10 13) as H.
    rewrite !INR_IZR_INZ in H. cbn [Z.of_nat Pos.of_succ_nat Pos.succ] in H.
    assert (13 * logb 10 (17 / 100) < 0 - 10) as H'
      by (apply H; [lia | lia | lia | vm_compute; reflexivity]).
    lra.
Qed.

Lemma log2_99_10 : 205 / 62 <= Math_log2 (99 / 10) < 43 / 13.
Proof.
  unfold Math_log2. split.
  - pose proof (logb_lower 2 99 10 205 0 62) as H.
    rewrite !INR_IZR_INZ in H. cbn [Z.of_nat Pos.of_succ_nat Pos.succ] in H.
    assert (205 - 0 <= 62 * logb 2 (99 / 10)) as H'
      by (apply H; [lia | lia | lia | vm_compute; discriminate]).
    lra.
  - pose proof (logb_upper 2 99 10 43 0 13) as H.
    rewrite !INR_IZR_INZ in H. cbn [Z.of_nat Pos.of_succ_nat Pos.succ] in H.
    assert (13 * logb 2 (99 / 10) < 43 - 0) as H'
      by (apply H; [lia | lia | lia | vm_compute; reflexivity]).
    lra.
Qed.

(** ** Rounded scores at the sample ratios *)

Lemma round_band4_17_100 : Math_round (bandScore (17 / 100)) = 469.
Proof.
  rewrite bandScore_band4 by lra.
  pose proof log10_17_100 as [Hlo Hhi].
  apply Math_round_unique. lra.
Qed.

Lemma round_band4_tenth : Math_round (bandScore (1 / 10)) = 400.
Proof.
  rewrite bandScore_band4 by lra. rewrite log10_tenth.
  apply Math_round_unique. lra.
Qed.

Lemma round_band5_99_10 : Math_round (bandScore (99 / 10)) = 2023.
Proof.
  rewrite bandScore_band5 by lra.
  pose proof log2_99_10 as [Hlo Hhi].
  apply Math_round_unique. lra.
Qed.

Lemma round_band6_10 : Math_round (bandScore 10) = 2000.
Proof.
  rewrite bandScore_band6 by lra.
  replace (10 / 10) with 1 by lra.
  unfold Math_log2. rewrite logb_1.
  apply Math_round_unique. lra.
Qed.

Lemma band1_1e4 : bandScore (1 / 10000) = -1000.
Proof.
  rewrite bandScore_band1 by lra.
  replace (1 / 10000 * 1000) with (1 / 10) by lra.
  rewrite log10_tenth. lra.
Qed.

Lemma band2_1e3 : bandScore (1 / 1000) = -350.
Proof.
  rewrite bandScore_band2 by lra.
  replace (1 / 1000 * 100) with (1 / 10) by lra.
  rewrite log10_tenth. lra.
Qed.

Lemma band1_1e6 : bandScore (1 / 1000000) = -1400.
Proof.
  rewrite bandScore_band1 by lra.
  replace (1 / 1000000 * 1000) with (1 / 1000) by lra.
  rewrite log10_thousandth. lra.
Qed.

(** ** The range of each band before rounding *)

Lemma log2_10_bound : Math_log2 10 < 10 / 3.
Proof.
  unfold Math_log2.
  pose proof (logb_upper 2 10 1 10 0 3) as H.
  rewrite !INR_IZR_INZ in H. cbn [Z.of_nat Pos.of_succ_nat Pos.succ] in H.
  assert (3 * logb 2 (10 / 1) < 10 - 0) as H'
    by (apply H; [lia | lia | lia | vm_compute; reflexivity]).
  replace (10 / 1) with 10 in H' by lra. lra.
Qed.

(** Below 1 the base-10 logarithm of [x] in [[1/10, 1)] is in [[-1, 0)]. *)
Lemma log10_decade (x : R) : 1 / 10 <= x < 1 -> -1 <= Math_log10 x < 0.
Proof.
  intros [Hlo Hhi]. unfold Math_log10. split.
  - rewrite <- log10_tenth. unfold Math_log10. apply logb_mono; lra.
  - rewrite <- (logb_1 10). apply logb_lt; lra.
Qed.

(** From 1 on the base-2 logarithm of [x] in [[1, 10)] is in
    [[0, log2 10)]. *)
Lemma log2_decade (x : R) : 1 <= x < 10 -> 0 <= Math_log2 x < Math_log2 10.
Proof.
  intros [Hlo Hhi]. unfold Math_log2. split.
  - rewrite <- (logb_1 2). apply logb_mono; lra.
  - apply logb_lt; lra.
Qed.

Lemma band1_range r : 0 < r < 1 / 1000 -> bandScore r < -800.
Proof.
  intros H. rewrite bandScore_band1 by lra.
  assert (Math_log10 (r * 1000) < 0).
  { unfold Math_log10. rewrite <- (logb_1 10). apply logb_lt; lra. }
  lra.
Qed.

Lemma band2_range r : 1 / 1000 <= r < 1 / 100 -> -350 <= bandScore r < -200.
Proof.
  intros H. rewrite bandScore_band2 by lra.
  pose proof (log10_decade (r * 100)). lra.
Qed.

Lemma band3_range r : 1 / 100 <= r < 1 / 10 -> 0 <= bandScore r < 200.
Proof.
  intros H. rewrite bandScore_band3 by lra.
  pose proof (log10_decade (r * 10)). lra.
Qed.

Lemma band4_range r : 1 / 10 <= r < 1 -> 400 <= bandScore r < 700.
Proof.
  intros H. rewrite bandScore_band4 by lra.
  pose proof (log10_decade r). lra.
Qed.

Lemma band5_range r :
  1 <= r < 10 -> 700 <= bandScore r < 700 + 400 * Math_log2 10.
Proof.
  intros H. rewrite bandScore_band5 by lra.
  pose proof (log2_decade r). lra.
Qed.

Lemma band6_range r :
  10 <= r < 100 -> 2000 <= bandScore r < 2000 + 600 * Math_log2 10.
Proof.
  intros H. rewrite bandScore_band6 by lra.
  pose proof (log2_decade (r / 10)). lra.
Qed.

Lemma band7_range r : 100 <= r -> 5000 <= bandScore r.
Proof.
  intros H. rewrite bandScore_band7 by lra.
  assert (0 <= Math_log2 (r / 100)).
  { unfold Math_log2. rewrite <- (logb_1 2). apply logb_mono; lra. }
  lra.
Qed.

(** ** Monotonicity inside a band *)

Lemma log_mono_scaled (r1 r2 : R) :
  0 < r1 -> r1 <= r2 ->
  (forall c, 0 < c -> Math_log10 (r1 * c) <= Math_log10 (r2 * c)) /\
  (forall c, 0 < c -> Math_log2 (r1 / c) <= Math_log2 (r2 / c)).
Proof.
  intros H1 H12. split; intros c Hc.
  - unfold Math_log10. apply logb_mono; [lra | nra | nra].
  - unfold Math_log2. apply logb_mono; [lra | |].
    + apply Rdiv_lt_0_compat; lra.
    + unfold Rdiv. apply Rmult_le_compat_r; [| exact H12].
      left. now apply Rinv_0_lt_compat.
Qed.

Lemma bandScore_mono_within (r1 r2 : R) :
  0 < r1 -> r1 <= r2 ->
  (r2 < 1 / 1000 \/
   1 / 1000 <= r1 /\ r2 < 1 / 100 \/
   1 / 100 <= r1 /\ r2 < 1 / 10 \/
   1 / 10 <= r1 /\ r2 < 1 \/
   1 <= r1 /\ r2 < 10 \/
   10 <= r1 /\ r2 < 100 \/
   100 <= r1) ->
  bandScore r1 <= bandScore r2.
Proof.
  intros H1 H12 Hband.
  destruct (log_mono_scaled r1 r2 H1 H12) as [M10 M2].
  pose proof (M10 1000) as A1. pose proof (M10 100) as A2.
  pose proof (M10 10) as A3. pose proof (M10 1) as A4.
  pose proof (M2 1) as A5. pose proof (M2 10) as A6. pose proof (M2 100) as A7.
  rewrite !Rmult_1_r in A4. unfold Rdiv in A5. rewrite Rinv_1, !Rmult_1_r in A5.
  destruct Hband as [H | [H | [H | [H | [H | [H | H]]]]]].
  - rewrite !bandScore_band1 by lra. lra.
  - rewrite !bandScore_band2 by lra. lra.
  - rewrite !bandScore_band3 by lra. lra.
  - rewrite !bandScore_band4 by lra. lra.
  - rewrite !bandScore_band5 by lra. lra.
  - rewrite !bandScore_band6 by lra. lra.
  - rewrite !bandScore_band7 by lra. lra.
Qed.

(** Across the boundaries: the unrounded score is monotone in the ratio
    on [(0, 10)] and on [[10, oo)]. *)
Lemma bandScore_mono_away_from_10 (r1 r2 : R) :
  0 < r1 -> r1 <= r2 -> (r2 < 10 \/ 10 <= r1) ->
  bandScore r1 <= bandScore r2.
Proof.
  intros H1 H12 Hside.
  assert (H2 : 0 < r2) by lra.
  pose proof log2_10_bound as HL.
  assert (D1 : r1 < 1 / 1000 \/ 1 / 1000 <= r1 < 1 / 100 \/
               1 / 100 <= r1 < 1 / 10 \/ 1 / 10 <= r1 < 1 \/
               1 <= r1 < 10 \/ 10 <= r1 < 100 \/ 100 <= r1) by lra.
  assert (D2 : r2 < 1 / 1000 \/ 1 / 1000 <= r2 < 1 / 100 \/
               1 / 100 <= r2 < 1 / 10 \/ 1 / 10 <= r2 < 1 \/
               1 <= r2 < 10 \/ 10 <= r2 < 100 \/ 100 <= r2) by lra.
  destruct D1 as [D1 | [D1 | [D1 | [D1 | [D1 | [D1 | D1]]]]]];
  destruct D2 as [D2 | [D2 | [D2 | [D2 | [D2 | [D2 | D2]]]]]];
  try (exfalso; destruct Hside; lra);
  try (apply bandScore_mono_within; lra);
  clear Hside;
  repeat match goal with
         | H : ?r < 1 / 1000 |- _ =>
             assert (bandScore r < -800) by (apply band1_range; lra); clear H
         | H : 1 / 1000 <= _ < 1 / 100 |- _ =>
             pose proof (band2_range _ H); clear H
         | H : 1 / 100 <= _ < 1 / 10 |- _ =>
             pose proof (band3_range _ H); clear H
         | H : 1 / 10 <= _ < 1 |- _ =>
             pose proof (band4_range _ H); clear H
         | H : 1 <= _ < 10 |- _ =>
             pose proof (band5_range _ H); clear H
         | H : 10 <= _ < 100 |- _ =>
             pose proof (band6_range _ H); clear H
         | H : 100 <= _ |- _ =>
             pose proof (band7_range _ H); clear H
         end;
  lra.
Qed.

(** ** Weighted revenue and ratio of the samples *)

Lemma rawRatio_sample_app n raised revenue fees :
  rawRatio (Samples.sampleProject n Application raised revenue fees)
  = revenue / raised.
Proof. unfold rawRatio, weightedAnnualRevenue. cbn. unfold Rdiv. ring. Qed.

End AuraFacts.

(* ================================================================== *)
(** * Properties of the scoring function *)
(* ================================================================== *)

Module AuraScoreSpec.
Import JS JSFacts ArrayFacts Dashboard AuraFacts.
Local Open Scope R_scope.

(** ** The layer-1 example *)

Lemma layer1_example_inputs (p : CryptoProject) :
  category p = L1 ->
  annualizedRevenue p = Some 100 ->
  annualizedAppFees p = Some 100 ->
  amountRaised p = 1000 ->
  weightedAnnualRevenue p = 170 /\ rawRatio p = 17 / 100.
Proof.
  intros Hc Hr Hf Ha.
  assert (Hw : weightedAnnualRevenue p = 170).
  { unfold weightedAnnualRevenue. rewrite Hc, Hr, Hf. cbn. lra. }
  split; [exact Hw |].
  unfold rawRatio. rewrite Hw, Ha. lra.
Qed.

Lemma layer1_example_469 (p : CryptoProject) :
  category p = L1 ->
  annualizedRevenue p = Some 100 ->
  annualizedAppFees p = Some 100 ->
  amountRaised p = 1000 ->
  auraScore (calculateAuraScore p) = Num 469.
Proof.
  intros Hc Hr Hf Ha.
  destruct (layer1_example_inputs p Hc Hr Hf Ha) as [_ Hq].
  rewrite auraScore_funded by (rewrite Ha; lra).
  rewrite Hq, round_band4_17_100. reflexivity.
Qed.

(** C2, as amended.  A project of category [L1] with annualized revenue
    100, annualized application fees 100 and 1000 raised has weighted
    revenue 170 and ratio 0.17; its score is
    [round(log10(0.17) * 300 + 700)], and that number is 469. *)
Theorem layer1_example_score (p : CryptoProject) :
  category p = L1 ->
  annualizedRevenue p = Some 100 ->
  annualizedAppFees p = Some 100 ->
  amountRaised p = 1000 ->
  weightedAnnualRevenue p = 170 /\
  rawRatio p = 17 / 100 /\
  auraScore (calculateAuraScore p)
    = Num (Math_round (Math_log10 (17 / 100) * 300 + 700)) /\
  auraScore (calculateAuraScore p) = Num 469.
Proof.
  intros Hc Hr Hf Ha.
  destruct (layer1_example_inputs p Hc Hr Hf Ha) as [Hw Hq].
  repeat split; try assumption.
  - rewrite auraScore_funded by (rewrite Ha; lra).
    rewrite Hq, bandScore_band4 by lra. reflexivity.
  - now apply layer1_example_469.
Qed.

Lemma layer1_example_score_witness :
  weightedAnnualRevenue Samples.chain170 = 170 /\
  rawRatio Samples.chain170 = 17 / 100 /\
  auraScore (calculateAuraScore Samples.chain170)
    = Num (Math_round (Math_log10 (17 / 100) * 300 + 700)) /\
  auraScore (calculateAuraScore Samples.chain170) = Num 469.
Proof.
  apply (layer1_example_score Samples.chain170); reflexivity.
Defined.

(** C2, as stated, fails on the sample: the score is not 525. *)
Lemma layer1_example_score_not_525 :
  ~ (weightedAnnualRevenue Samples.chain170 = 170 /\
     rawRatio Samples.chain170 = 17 / 100 /\
     auraScore (calculateAuraScore Samples.chain170) = Num 525).
Proof.
  intros (_ & _ & H).
  rewrite (layer1_example_469 Samples.chain170) in H by reflexivity.
  injection H as H. lra.
Qed.

(** ** The application example on the boundary at 0.1 *)

(** C5.  For an [Application] with annualized revenue 50, application
    fees 1000 and 500 raised, the fees are ignored (weighted revenue
    50), the ratio is exactly 0.1, and the score comes from the formula
    of the band [[0.1, 1)], [log10(ratio) * 300 + 700], which gives 400,
    and not from the formula of the band [[0.01, 0.1)]. *)
Theorem application_boundary_band (p : CryptoProject) :
  category p = Application ->
  annualizedRevenue p = Some 50 ->
  annualizedAppFees p = Some 1000 ->
  amountRaised p = 500 ->
  weightedAnnualRevenue p = 50 /\
  rawRatio p = 1 / 10 /\
  bandScore (rawRatio p) = Math_log10 (rawRatio p) * 300 + 700 /\
  bandScore (rawRatio p) <> Math_log10 (rawRatio p * 10) * 200 + 200 /\
  bandScore (rawRatio p) = 400 /\
  auraScore (calculateAuraScore p) = Num 400.
Proof.
  intros Hc Hr Hf Ha.
  assert (Hw : weightedAnnualRevenue p = 50).
  { unfold weightedAnnualRevenue. rewrite Hc, Hr, Hf. cbn. lra. }
  assert (Hq : rawRatio p = 1 / 10).
  { unfold rawRatio. rewrite Hw, Ha. lra. }
  assert (Hb : bandScore (1 / 10) = 400).
  { rewrite bandScore_band4 by lra. rewrite log10_tenth. lra. }
  rewrite auraScore_funded by (rewrite Ha; lra).
  rewrite Hq. repeat split.
  - exact Hw.
  - apply bandScore_band4. lra.
  - rewrite Hb. replace (1 / 10 * 10) with 1 by lra.
    unfold Math_log10. rewrite logb_1. lra.
  - exact Hb.
  - now rewrite round_band4_tenth.
Qed.

Lemma application_boundary_band_witness :
  weightedAnnualRevenue Samples.appTenth = 50 /\
  rawRatio Samples.appTenth = 1 / 10 /\
  bandScore (rawRatio Samples.appTenth)
    = Math_log10 (rawRatio Samples.appTenth) * 300 + 700 /\
  bandScore (rawRatio Samples.appTenth)
    <> Math_log10 (rawRatio Samples.appTenth * 10) * 200 + 200 /\
  bandScore (rawRatio Samples.appTenth) = 400 /\
  auraScore (calculateAuraScore Samples.appTenth) = Num 400.
Proof.
  apply (application_boundary_band Samples.appTenth); reflexivity.
Defined.

(** ** The boundary at ratio 10 *)

(** C1 at its failing input.  Both samples have 10 raised; the ratio
    9.9 scores 2023 and the larger ratio 10 scores 2000, so the score
    is not monotone across the boundary at 10: the band below it ends
    at [700 + 400 * log2 10], which is above 2000, not at 2000. *)
Theorem inversion_at_ratio_10 :
  0 < amountRaised Samples.ratio9_9 /\
  0 < amountRaised Samples.ratio10 /\
  0 < rawRatio Samples.ratio9_9 < rawRatio Samples.ratio10 /\
  auraScore (calculateAuraScore Samples.ratio9_9) = Num 2023 /\
  auraScore (calculateAuraScore Samples.ratio10) = Num 2000.
Proof.
  assert (Ha : forall n r, amountRaised
            (Samples.sampleProject n Application 10 r 0) = 10) by reflexivity.
  unfold Samples.ratio9_9, Samples.ratio10.
  rewrite !auraScore_funded by (rewrite Ha; lra).
  rewrite !rawRatio_sample_app, !Ha.
  replace (100 / 10) with 10 by lra.
  rewrite round_band5_99_10, round_band6_10.
  repeat split; lra.
Qed.

(** Away from that boundary the claim holds: for ratios on the same
    side of 10 the rounded score is monotone in the ratio, the ratio
    being taken in exact arithmetic. *)
Lemma auraScore_mono_away_from_10 (p1 p2 : CryptoProject) :
  0 < amountRaised p1 -> 0 < amountRaised p2 ->
  0 < rawRatio p1 -> rawRatio p1 <= rawRatio p2 ->
  (rawRatio p2 < 10 \/ 10 <= rawRatio p1) ->
  exists s1 s2,
    auraScore (calculateAuraScore p1) = Num s1 /\
    auraScore (calculateAuraScore p2) = Num s2 /\
    s1 <= s2.
Proof.
  intros Ha1 Ha2 H1 H12 Hside.
  exists (Math_round (bandScore (rawRatio p1))),
         (Math_round (bandScore (rawRatio p2))).
  rewrite !auraScore_funded by lra.
  repeat split.
  now apply Math_round_mono, bandScore_mono_away_from_10.
Qed.

(** ** The ranges of the bands *)

(** C3 at its failing inputs.  At ratio 0.0001 the formula of the band
    [(0, 0.001)] is taken and gives -1000, below -800 and so outside
    [[-800, -200)]; at ratio 9.9 the formula of the band [[1, 10)] is
    taken and gives at least 2000, outside [[700, 2000)]; and at ratio
    0.001 the formula of the band [[0.001, 0.01)] gives -350, outside
    [[-200, 100)]. *)
Theorem band_formulas_leave_stated_ranges :
  (0 < amountRaised Samples.ratio1e4 /\
   0 < rawRatio Samples.ratio1e4 < 1 / 1000 /\
   bandScore (rawRatio Samples.ratio1e4)
     = Math_log10 (rawRatio Samples.ratio1e4 * 1000) * 200 - 800 /\
   bandScore (rawRatio Samples.ratio1e4) = -1000) /\
  (0 < amountRaised Samples.ratio9_9 /\
   1 <= rawRatio Samples.ratio9_9 < 10 /\
   bandScore (rawRatio Samples.ratio9_9)
     = Math_log2 (rawRatio Samples.ratio9_9) * 400 + 700 /\
   2000 <= bandScore (rawRatio Samples.ratio9_9)) /\
  (0 < amountRaised Samples.ratio1e3 /\
   1 / 1000 <= rawRatio Samples.ratio1e3 < 1 / 100 /\
   bandScore (rawRatio Samples.ratio1e3)
     = Math_log10 (rawRatio Samples.ratio1e3 * 100) * 150 - 200 /\
   bandScore (rawRatio Samples.ratio1e3) = -350).
Proof.
  unfold Samples.ratio1e4, Samples.ratio9_9, Samples.ratio1e3.
  rewrite !rawRatio_sample_app. cbn [amountRaised Samples.sampleProject].
  repeat split; try lra.
  - apply bandScore_band1. lra.
  - apply band1_1e4.
  - apply bandScore_band5. lra.
  - rewrite bandScore_band5 by lra.
    pose proof log2_99_10 as [Hlo _]. lra.
  - apply bandScore_band2. lra.
  - apply band2_1e3.
Qed.

(** ** The floor of the funded scores *)

(** C10 at its failing inputs.  With 1 of revenue on 1,000,000 raised
    the score is -1400, below -1000; with 1 of revenue on 10,000 raised
    the score is -1000 although the weighted revenue is 1, the same
    score as a funded project without revenue. *)
Theorem tiny_revenue_scores_below_floor :
  (0 < amountRaised Samples.ratio1e6 /\
   weightedAnnualRevenue Samples.ratio1e6 = 1 /\
   auraScore (calculateAuraScore Samples.ratio1e6) = Num (-1400)) /\
  (0 < amountRaised Samples.ratio1e4 /\
   weightedAnnualRevenue Samples.ratio1e4 = 1 /\
   auraScore (calculateAuraScore Samples.ratio1e4) = Num (-1000)) /\
  (0 < amountRaised Samples.noRevenue /\
   weightedAnnualRevenue Samples.noRevenue = 0 /\
   auraScore (calculateAuraScore Samples.noRevenue) = Num (-1000)).
Proof.
  assert (Hw : forall n a r,
             weightedAnnualRevenue (Samples.sampleProject n Application a r 0) = r).
  { intros. unfold weightedAnnualRevenue. cbn. lra. }
  assert (Hn : weightedAnnualRevenue Samples.noRevenue = 0).
  { unfold weightedAnnualRevenue. cbn. lra. }
  split; [| split].
  - unfold Samples.ratio1e6. rewrite Hw.
    rewrite auraScore_funded by (cbn; lra).
    rewrite rawRatio_sample_app, band1_1e6, Math_round_IZR.
    cbn. repeat split; lra.
  - unfold Samples.ratio1e4. rewrite Hw.
    rewrite auraScore_funded by (cbn; lra).
    rewrite rawRatio_sample_app, band1_1e4, Math_round_IZR.
    cbn. repeat split; lra.
  - rewrite auraScore_funded by (cbn; lra).
    unfold rawRatio. rewrite Hn.
    rewrite bandScore_nonpos by (cbn; lra).
    rewrite Math_round_IZR. cbn. repeat split; lra.
Qed.

(** The part of that claim the code keeps: the score of a funded
    project is finite. *)
Lemma funded_score_finite (p : CryptoProject) :
  amountRaised p <> 0 -> exists s, auraScore (calculateAuraScore p) = Num s.
Proof. intros H. eexists. now apply auraScore_funded. Qed.

(** ** Ranking: the comparator and the bootstrapped projects *)

Lemma auraBefore_spec (a b : ProjectWithAuraScore) :
  auraBefore a b = true <->
  match auraScore a, auraScore b with
  | Infinity, _ => True
  | Num _, Infinity => False
  | Num sa, Num sb => sb <= sa
  end.
Proof.
  unfold auraBefore, compareAura.
  destruct (auraScore a) as [sa |], (auraScore b) as [sb |];
    match goal with
    | |- context [Rle_dec ?x ?y] => destruct (Rle_dec x y)
    end;
    split; intros H; try reflexivity; try discriminate; try exact I;
    try lra.
Qed.

Lemma auraBefore_total (a b : ProjectWithAuraScore) :
  auraBefore a b = false -> auraBefore b a = true.
Proof.
  intros H. apply auraBefore_spec.
  assert (Hn : ~ auraBefore a b = true) by (rewrite H; discriminate).
  rewrite auraBefore_spec in Hn.
  destruct (auraScore a), (auraScore b); try exact I; try lra.
Qed.

Lemma auraBefore_trans (a b c : ProjectWithAuraScore) :
  auraBefore a b = true -> auraBefore b c = true -> auraBefore a c = true.
Proof.
  rewrite !auraBefore_spec.
  destruct (auraScore a), (auraScore b), (auraScore c);
    intros; try exact I; try contradiction; lra.
Qed.

Lemma sortedProjects_sorted (projects : list CryptoProject) :
  StronglySorted (fun a b => auraBefore a b = true) (sortedProjects projects).
Proof.
  apply sort_sorted.
  - exact auraBefore_total.
  - exact auraBefore_trans.
Qed.

Lemma sortedProjects_perm (projects : list CryptoProject) :
  Permutation (sortedProjects projects) (map calculateAuraScore projects).
Proof. apply sort_perm. Qed.

(** In the ranking no entry with score [Infinity] comes after an entry
    with a finite score. *)
Lemma infinity_ranks_first (projects : list CryptoProject)
    (i j : nat) (a b : ProjectWithAuraScore) (x : R) :
  nth_error (sortedProjects projects) i = Some a ->
  nth_error (sortedProjects projects) j = Some b ->
  auraScore a = Infinity -> auraScore b = Num x ->
  (i < j)%nat.
Proof.
  intros Hi Hj Ha Hb.
  destruct (Nat.lt_trichotomy i j) as [Hlt | [Heq | Hgt]]; [exact Hlt | |].
  - subst j. rewrite Hi in Hj. injection Hj as <-.
    rewrite Ha in Hb. discriminate.
  - exfalso.
    pose proof (StronglySorted_nth_error _ _ (sortedProjects_sorted projects)
                  j i b a Hgt Hj Hi) as H.
    cbn in H. apply auraBefore_spec in H. rewrite Ha, Hb in H. exact H.
Qed.

(** The ranking holds every scored project. *)
Lemma ranked_position (projects : list CryptoProject) (p : CryptoProject) :
  In p projects ->
  exists i, nth_error (sortedProjects projects) i = Some (calculateAuraScore p).
Proof.
  intros Hp. apply In_nth_error.
  apply (Permutation_in _ (Permutation_sym (sortedProjects_perm projects))).
  now apply in_map.
Qed.

(** C4.  With nothing raised the score is [Infinity] when the weighted
    revenue is positive, and it is exactly 0, without rounding, when
    the weighted revenue is 0.  The sorted ranking is a permutation of
    the scored projects, so a project with score [Infinity] is in the
    ranking of every list that holds it, and there it stands before
    every project with a finite score: each of its positions is before
    each position of a finite score. *)
Theorem bootstrapped_score (p : CryptoProject) :
  amountRaised p = 0 ->
  (0 < weightedAnnualRevenue p ->
   auraScore (calculateAuraScore p) = Infinity /\
   (forall projects i j b x,
      nth_error (sortedProjects projects) i = Some (calculateAuraScore p) ->
      nth_error (sortedProjects projects) j = Some b ->
      auraScore b = Num x ->
      (i < j)%nat) /\
   (forall projects,
      Permutation (sortedProjects projects) (map calculateAuraScore projects)) /\
   (forall projects q x,
      In p projects -> In q projects ->
      auraScore (calculateAuraScore q) = Num x ->
      exists i j,
        nth_error (sortedProjects projects) i = Some (calculateAuraScore p) /\
        nth_error (sortedProjects projects) j = Some (calculateAuraScore q) /\
        (i < j)%nat)) /\
  (weightedAnnualRevenue p = 0 ->
   auraScore (calculateAuraScore p) = Num 0).
Proof.
  intros Ha. rewrite (auraScore_bootstrapped p Ha). split.
  - intros Hw.
    assert (Hinf : auraScore (calculateAuraScore p) = Infinity).
    { rewrite (auraScore_bootstrapped p Ha).
      destruct (Rlt_dec 0 (weightedAnnualRevenue p)); [reflexivity | lra]. }
    split; [| split; [| split]].
    + destruct (Rlt_dec 0 (weightedAnnualRevenue p)); [reflexivity | lra].
    + intros projects i j b x Hi Hj Hb.
      exact (infinity_ranks_first projects i j _ b x Hi Hj Hinf Hb).
    + intros projects. apply sortedProjects_perm.
    + intros projects q x Hp Hq Hx.
      destruct (ranked_position projects p Hp) as [i Hi].
      destruct (ranked_position projects q Hq) as [j Hj].
      exists i, j. repeat split; try assumption.
      exact (infinity_ranks_first projects i j _ _ x Hi Hj Hinf Hx).
  - intros Hw.
    destruct (Rlt_dec 0 (weightedAnnualRevenue p)); [lra | reflexivity].
Qed.

(** The two samples take the two branches. *)
Lemma bootstrapped_samples :
  auraScore (calculateAuraScore Samples.bootstrapped) = Infinity /\
  auraScore (calculateAuraScore Samples.bootstrappedIdle) = Num 0.
Proof.
  rewrite !auraScore_bootstrapped by reflexivity.
  unfold weightedAnnualRevenue. cbn.
  split; match goal with
         | |- context [Rlt_dec ?x ?y] => destruct (Rlt_dec x y)
         end; try reflexivity; lra.
Qed.

(** A ranking of two: the bootstrapped project is listed second and
    ranked first. *)
Lemma ranking_of_two :
  sortedProjects [Samples.chain170; Samples.bootstrapped]
  = [calculateAuraScore Samples.bootstrapped;
     calculateAuraScore Samples.chain170].
Proof.
  assert (Hb : auraBefore (calculateAuraScore Samples.chain170)
                          (calculateAuraScore Samples.bootstrapped) = false).
  { unfold auraBefore, compareAura.
    rewrite (proj1 bootstrapped_samples).
    rewrite (layer1_example_469 Samples.chain170) by reflexivity.
    destruct (Rle_dec 1 0); [lra | reflexivity]. }
  unfold sortedProjects, sort. cbn [map fold_right sortInsert].
  now rewrite Hb.
Qed.

Lemma bootstrapped_score_witness :
  amountRaised Samples.bootstrapped = 0 /\
  0 < weightedAnnualRevenue Samples.bootstrapped /\
  auraScore (calculateAuraScore Samples.bootstrapped) = Infinity /\
  sortedProjects [Samples.chain170; Samples.bootstrapped]
  = [calculateAuraScore Samples.bootstrapped;
     calculateAuraScore Samples.chain170] /\
  Permutation (sortedProjects [Samples.chain170; Samples.bootstrapped])
              (map calculateAuraScore [Samples.chain170; Samples.bootstrapped]) /\
  exists i j,
    nth_error (sortedProjects [Samples.chain170; Samples.bootstrapped]) i
    = Some (calculateAuraScore Samples.bootstrapped) /\
    nth_error (sortedProjects [Samples.chain170; Samples.bootstrapped]) j
    = Some (calculateAuraScore Samples.chain170) /\
    (i < j)%nat.
Proof.
  assert (Ha : amountRaised Samples.bootstrapped = 0) by reflexivity.
  assert (Hw : 0 < weightedAnnualRevenue Samples.bootstrapped)
    by (unfold weightedAnnualRevenue; simpl; lra).
  destruct (proj1 (bootstrapped_score Samples.bootstrapped Ha) Hw)
    as (Hinf & _ & Hperm & Hfirst).
  split; [exact Ha |]. split; [exact Hw |]. split; [exact Hinf |].
  split; [exact ranking_of_two |]. split; [apply Hperm |].
  apply (Hfirst [Samples.chain170; Samples.bootstrapped] Samples.chain170 469).
  - right. now left.
  - now left.
  - now apply layer1_example_469.
Defined.

(** ** The two copies of the function *)

Lemma calculateAuraScore_copies (p : CryptoProject) :
  InfrastructureComparison.calculateAuraScore p = Dashboard.calculateAuraScore p.
Proof.
  unfold InfrastructureComparison.calculateAuraScore,
    Dashboard.calculateAuraScore, rawRatio, bandScore, weightedAnnualRevenue.
  destruct (category p); reflexivity.
Qed.

(** C6.  The scoring function of the dashboard and the one of the
    comparison view return the same [auraScore] on every project. *)
Theorem calculateAuraScore_agree (p : CryptoProject) :
  auraScore (Dashboard.calculateAuraScore p)
  = auraScore (InfrastructureComparison.calculateAuraScore p).
Proof.
  unfold InfrastructureComparison.calculateAuraScore,
    Dashboard.calculateAuraScore.
  cbn [auraScore].
  destruct (Req_dec_T (amountRaised p) 0) as [Hboot | Hfunded].
  - (* bootstrapped: the same test on the same weighted revenue *)
    unfold weightedAnnualRevenue.
    destruct (category p); reflexivity.
  - (* funded: the same ratio through the same chain of bands *)
    unfold rawRatio, bandScore, weightedAnnualRevenue.
    destruct (category p); reflexivity.
Qed.

(** X26.  Hence both views rank the projects alike: the dashboard's
    sorted list and the comparison view's are the same list. *)
Lemma rankings_agree (projects : list CryptoProject) :
  InfrastructureComparison.getProjectsWithAuraScores projects
  = Dashboard.sortedProjects projects.
Proof.
  unfold InfrastructureComparison.getProjectsWithAuraScores, sortedProjects.
  f_equal. apply map_ext. exact calculateAuraScore_copies.
Qed.

End AuraScoreSpec.

(* ================================================================== *)
(** * Slices *)
(* ================================================================== *)

Module SliceFacts.
Import JS.

Section Slices.
Context {A : Type}.
Implicit Types (arr : list A) (start stop : Z).

Lemma relativeIndex_nonneg (len k : Z) :
  (0 <= k)%Z -> relativeIndex len k = Z.min k len.
Proof.
  intros H. unfold relativeIndex.
  destruct (Z.ltb_spec k 0); [lia | reflexivity].
Qed.

(** With bounds inside the array a slice is a [firstn] of a [skipn]. *)
Lemma slice_within arr start stop :
  (0 <= start <= stop)%Z -> (stop <= Z.of_nat (length arr))%Z ->
  slice arr start (Some stop)
  = firstn (Z.to_nat stop - Z.to_nat start) (skipn (Z.to_nat start) arr).
Proof.
  intros H1 H2. unfold slice.
  rewrite !relativeIndex_nonneg by lia.
  rewrite !Z.min_l by lia.
  f_equal. lia.
Qed.

Lemma slice_to_end arr start :
  (0 <= start)%Z -> (start <= Z.of_nat (length arr))%Z ->
  slice arr start None = skipn (Z.to_nat start) arr.
Proof.
  intros H1 H2. unfold slice.
  rewrite relativeIndex_nonneg, Z.min_l by lia.
  apply firstn_all2. rewrite length_skipn. lia.
Qed.

(** Three consecutive slices cut the array into three pieces. *)
Lemma slice_partition arr a b :
  (0 <= a <= b)%Z -> (b <= Z.of_nat (length arr))%Z ->
  slice arr 0 (Some a) ++ slice arr a (Some b) ++ slice arr b None = arr.
Proof.
  intros H1 H2.
  rewrite !slice_within, slice_to_end by lia.
  cbn [Z.to_nat skipn]. rewrite Nat.sub_0_r.
  replace (skipn (Z.to_nat b) arr)
    with (skipn (Z.to_nat b - Z.to_nat a) (skipn (Z.to_nat a) arr)).
  - rewrite firstn_skipn. apply firstn_skipn.
  - rewrite skipn_skipn. f_equal. lia.
Qed.

(** Element [i] of a slice that starts at [start >= 0] is element
    [start + i] of the array. *)
Lemma slice_nth_error arr start (stop : option Z) (i : nat) (x : A) :
  (0 <= start)%Z ->
  nth_error (slice arr start stop) i = Some x ->
  nth_error arr (Z.to_nat start + i) = Some x.
Proof.
  intros H0 H. unfold slice in H.
  rewrite relativeIndex_nonneg in H by exact H0.
  rewrite nth_error_firstn in H.
  destruct (i <? _)%nat; [| discriminate].
  rewrite nth_error_skipn in H.
  destruct (Z.le_gt_cases start (Z.of_nat (length arr))) as [Hle | Hgt].
  - now rewrite Z.min_l in H by exact Hle.
  - rewrite Z.min_r in H by lia.
    assert (Hnone : nth_error arr (Z.to_nat (Z.of_nat (length arr)) + i) = None)
      by (apply nth_error_None; lia).
    rewrite Hnone in H. discriminate.
Qed.
End Slices.

End SliceFacts.

(* ================================================================== *)
(** * The tiers of the aura view *)
(* ================================================================== *)

Module TierSpec.
Import JS SliceFacts InfrastructureComparison.

Lemma tierSize_fifth (n : Z) : tierSize n = Z.max 1 (n * 2 / 10).
Proof. unfold tierSize. reflexivity. Qed.

Lemma tierSize_bounds (n : Z) :
  (2 <= n)%Z -> (1 <= tierSize n)%Z /\ (2 * tierSize n <= n)%Z.
Proof.
  intros H. rewrite tierSize_fifth.
  pose proof (Z.div_mod (n * 2) 10 ltac:(lia)) as E.
  pose proof (Z.mod_pos_bound (n * 2) 10 ltac:(lia)) as B.
  lia.
Qed.

(** X25.  From two projects on after the podium the three tiers cut
    the remainder into consecutive pieces. *)
Lemma tiers_partition (projectsWithAura : list ProjectWithAuraScore) :
  let view := renderAuraView projectsWithAura in
  (2 <= length (remaining view))%nat ->
  topTier view ++ midTier view ++ cursedTier view = remaining view.
Proof.
  cbn zeta. unfold renderAuraView.
  cbn [topTier midTier cursedTier remaining].
  set (rest := slice projectsWithAura 3 None).
  intros Hn.
  destruct (tierSize_bounds (Z.of_nat (length rest)) ltac:(lia)) as [H1 H2].
  apply slice_partition; lia.
Qed.

(** C8 at its failing input.  With four ranked projects one is left
    after the podium; both tier sizes are forced to 1, the mid-tier
    size is -1, and the project left is the whole top-tier and the
    whole cursed-tier: the tiers concatenate to two copies of it. *)
Theorem single_remaining_in_two_tiers (a b c d : ProjectWithAuraScore) :
  let view := renderAuraView [a; b; c; d] in
  remaining view = [d] /\
  topTier view = [d] /\
  midTier view = [] /\
  cursedTier view = [d] /\
  topTier view ++ midTier view ++ cursedTier view <> remaining view.
Proof.
  cbv. repeat split. discriminate.
Qed.

End TierSpec.

(* ================================================================== *)
(** * The leaderboard: sorting, rank badge and pagination *)
(* ================================================================== *)

Module LeaderboardSpec.
Import JS ArrayFacts SliceFacts BuilderLeaderboard.
Import Lqa.
Local Open Scope Q_scope.

Lemma StronglySorted_weaken {A : Type} (R1 R2 : A -> A -> Prop) (l : list A) :
  (forall a b, R1 a b -> R2 a b) -> StronglySorted R1 l -> StronglySorted R2 l.
Proof.
  intros HR. induction 1 as [| x l Hs IH Hx]; constructor.
  - exact IH.
  - eapply Forall_impl; [| exact Hx]. intros y. apply HR.
Qed.

(** [handleSort] on a new field selects [desc]; on the current field it
    flips the direction.  The page goes back to 1 either way. *)
Lemma handleSort_new_field (field : SortField) (st : State) :
  SortField_eqb (sortField st) field = false ->
  handleSort field st = mkState field desc 1.
Proof. intros H. unfold handleSort. now rewrite H. Qed.

Lemma handleSort_resets_page (field : SortField) (st : State) :
  currentPage (handleSort field st) = 1%Z.
Proof. unfold handleSort. now destruct (SortField_eqb _ _). Qed.

Section Table.
Variable localeCompare : string -> string -> Z.
Variable auraRanks : string -> option RankEntry.

Local Abbreviation sortedBuilders := (sortedBuilders localeCompare auraRanks).
Local Abbreviation paginatedBuilders := (paginatedBuilders localeCompare auraRanks).
Local Abbreviation builderBefore := (builderBefore localeCompare auraRanks).
Local Abbreviation totalPages := (totalPages localeCompare auraRanks).

(** Under the field [rank] the comparator orders by revenue, against
    the selected direction. *)
Lemma builderBefore_rank (st : State) (a b : BuilderRevenue) :
  sortField st = F_rank ->
  builderBefore st a b = true <->
  match sortDirection st with
  | asc => totalRevenue b <= totalRevenue a
  | desc => totalRevenue a <= totalRevenue b
  end.
Proof.
  intros Hf. unfold BuilderLeaderboard.builderBefore, compareBuilders.
  rewrite Hf, Qle_bool_iff.
  destruct (sortDirection st); split; intros H; lra.
Qed.

Lemma sortedBuilders_rank (st : State) (builders : list BuilderRevenue) :
  sortField st = F_rank ->
  StronglySorted
    (fun a b => match sortDirection st with
                | asc => totalRevenue b <= totalRevenue a
                | desc => totalRevenue a <= totalRevenue b
                end)
    (sortedBuilders st builders).
Proof.
  intros Hf.
  apply StronglySorted_weaken
    with (R1 := fun a b => builderBefore st a b = true).
  - intros a b. now apply builderBefore_rank.
  - apply sort_sorted.
    + intros a b Hab. apply (builderBefore_rank st _ _ Hf).
      assert (Hn : ~ builderBefore st a b = true)
        by (rewrite Hab; discriminate).
      rewrite (builderBefore_rank st _ _ Hf) in Hn.
      destruct (sortDirection st); lra.
    + intros a b c. rewrite !(builderBefore_rank st _ _ Hf).
      destruct (sortDirection st); lra.
Qed.

Lemma sortedBuilders_perm (st : State) (builders : list BuilderRevenue) :
  Permutation (sortedBuilders st builders) builders.
Proof. apply sort_perm. Qed.

Lemma sortedBuilders_length (st : State) (builders : list BuilderRevenue) :
  length (sortedBuilders st builders) = length builders.
Proof. apply sort_length. Qed.

(** C7, as amended.  Sorting by [rank] keeps the builders and orders
    them by total revenue, descending when the direction is [asc] and
    ascending when it is [desc]; and the rank shown in row [i] of a
    page is the 1-based position of that row in the table as it is
    currently sorted, by whatever column. *)
Theorem rank_follows_current_sort (st : State) (builders : list BuilderRevenue) :
  (1 <= currentPage st)%Z ->
  (sortField st = F_rank ->
   Permutation (sortedBuilders st builders) builders /\
   StronglySorted
     (fun a b => match sortDirection st with
                 | asc => totalRevenue b <= totalRevenue a
                 | desc => totalRevenue a <= totalRevenue b
                 end)
     (sortedBuilders st builders)) /\
  (forall (i : nat) (b : BuilderRevenue),
     nth_error (paginatedBuilders st builders) i = Some b ->
     (1 <= rank st (Z.of_nat i))%Z /\
     nth_error (sortedBuilders st builders)
               (Z.to_nat (rank st (Z.of_nat i) - 1)) = Some b).
Proof.
  intros Hp. split.
  - intros Hf. split.
    + apply sortedBuilders_perm.
    + now apply sortedBuilders_rank.
  - intros i b Hi. unfold rank, itemsPerPage. split; [lia |].
    apply slice_nth_error in Hi; [| unfold itemsPerPage; lia].
    unfold itemsPerPage in Hi.
    replace (Z.to_nat ((currentPage st - 1) * 10 + Z.of_nat i + 1 - 1))
      with (Z.to_nat ((currentPage st - 1) * 10) + i)%nat by lia.
    exact Hi.
Qed.

(** No page shows more than [itemsPerPage] rows. *)
Lemma page_size_bound (st : State) (builders : list BuilderRevenue) :
  (Z.of_nat (length (paginatedBuilders st builders)) <= itemsPerPage)%Z.
Proof.
  unfold BuilderLeaderboard.paginatedBuilders, slice, relativeIndex, itemsPerPage.
  rewrite length_firstn.
  destruct (Z.ltb_spec ((currentPage st - 1) * 10) 0);
    destruct (Z.ltb_spec (currentPage st * 10) 0); lia.
Qed.

(** C9.  The page size is 10 on every page; a table of exactly 25
    builders, in any sort state, has three pages, the third page holds
    exactly 5 rows and its Next button is disabled. *)
Theorem third_page_of_25 (st : State) (builders : list BuilderRevenue) :
  length builders = 25%nat ->
  currentPage st = 3%Z ->
  itemsPerPage = 10%Z /\
  (forall st' builders',
     (Z.of_nat (length (paginatedBuilders st' builders')) <= 10)%Z) /\
  totalPages st builders = 3%Z /\
  paginationShown localeCompare auraRanks st builders = true /\
  length (paginatedBuilders st builders) = 5%nat /\
  nextDisabled localeCompare auraRanks st builders = true.
Proof.
  intros Hlen Hpage.
  assert (Hs : length (sortedBuilders st builders) = 25%nat)
    by now rewrite sortedBuilders_length.
  assert (Ht : totalPages st builders = 3%Z).
  { unfold BuilderLeaderboard.totalPages. rewrite Hs. reflexivity. }
  unfold paginationShown, nextDisabled.
  rewrite Ht, Hpage. repeat split.
  - intros st' builders'. apply page_size_bound.
  - unfold BuilderLeaderboard.paginatedBuilders, slice.
    rewrite Hpage, length_firstn, length_skipn, Hs. reflexivity.
Qed.
End Table.

Lemma rank_follows_current_sort_witness :
  let st := mkState F_rank asc 1 in
  let table :=
    sortedBuilders Samples.codeUnitCompare Samples.sampleRanks st
      [Samples.lowEarner; Samples.highEarner] in
  (1 <= currentPage st)%Z /\
  Permutation table [Samples.lowEarner; Samples.highEarner] /\
  StronglySorted (fun a b => totalRevenue b <= totalRevenue a) table /\
  (1 <= rank st 0)%Z /\
  nth_error table (Z.to_nat (rank st 0 - 1)) = Some Samples.highEarner.
Proof.
  cbn zeta.
  assert (Hp : (1 <= currentPage (mkState F_rank asc 1))%Z) by (simpl; lia).
  destruct (rank_follows_current_sort Samples.codeUnitCompare
              Samples.sampleRanks (mkState F_rank asc 1)
              [Samples.lowEarner; Samples.highEarner] Hp) as [Hsort Hrow].
  destruct (Hsort eq_refl) as [Hperm Hdesc].
  destruct (Hrow 0%nat Samples.highEarner eq_refl) as [Hone Hpos].
  repeat split; assumption.
Defined.

Lemma third_page_of_25_witness :
  let st := mkState F_builderName asc 3 in
  length Samples.twentyFive = 25%nat /\
  currentPage st = 3%Z /\
  itemsPerPage = 10%Z /\
  (forall st' builders',
     (Z.of_nat (length (paginatedBuilders Samples.codeUnitCompare
                          Samples.sampleRanks st' builders')) <= 10)%Z) /\
  totalPages Samples.codeUnitCompare Samples.sampleRanks st Samples.twentyFive
    = 3%Z /\
  paginationShown Samples.codeUnitCompare Samples.sampleRanks st
    Samples.twentyFive = true /\
  length (paginatedBuilders Samples.codeUnitCompare Samples.sampleRanks st
            Samples.twentyFive) = 5%nat /\
  nextDisabled Samples.codeUnitCompare Samples.sampleRanks st
    Samples.twentyFive = true.
Proof.
  cbn zeta. split; [reflexivity |]. split; [reflexivity |].
  apply (third_page_of_25 Samples.codeUnitCompare Samples.sampleRanks
           (mkState F_builderName asc 3) Samples.twentyFive); reflexivity.
Defined.

(** C7, as stated, fails.  Coming from the initial state,
    [handleSort 'rank'] selects the direction [desc], and the table
    sorted by [rank] then lists the lower earner first; and with the
    table sorted by aura rank the rank 1 is shown on the lower earner. *)
Lemma rank_sort_not_always_descending :
  let byRank := handleSort F_rank initialState in
  let byAura := mkState F_auraRank asc 1 in
  let sorted st :=
    sortedBuilders Samples.codeUnitCompare Samples.sampleRanks st
      [Samples.highEarner; Samples.lowEarner] in
  let page st :=
    paginatedBuilders Samples.codeUnitCompare Samples.sampleRanks st
      [Samples.highEarner; Samples.lowEarner] in
  (sortField byRank = F_rank /\
   sorted byRank = [Samples.lowEarner; Samples.highEarner] /\
   ~ StronglySorted (fun a b => totalRevenue b <= totalRevenue a)
       (sorted byRank)) /\
  (nth_error (page byAura) 0 = Some Samples.lowEarner /\
   rank byAura 0 = 1%Z /\
   totalRevenue Samples.lowEarner < totalRevenue Samples.highEarner).
Proof.
  cbn zeta. split; [split; [reflexivity | split; [reflexivity |]] |].
  - intros H. apply StronglySorted_inv in H as [_ H].
    apply Forall_inv in H. vm_compute in H. apply H. reflexivity.
  - split; [reflexivity | split; [reflexivity |]].
    reflexivity.
Qed.

End LeaderboardSpec.

(* ================================================================== *)
(** * Further properties of the score *)
(* ================================================================== *)

Module ScoreProperties.
Import JS JSFacts Dashboard AuraFacts.
Local Open Scope R_scope.

(** ** Rounding against integer bounds *)

Lemma Math_round_ge (k : Z) (x : R) : IZR k <= x -> IZR k <= Math_round x.
Proof.
  intros H. rewrite <- (Math_round_IZR k). now apply Math_round_mono.
Qed.

Lemma Math_round_below (k : Z) (x : R) :
  x < IZR k + / 2 -> Math_round x <= IZR k.
Proof.
  intros H. unfold Math_round.
  destruct (base_Int_part (x + / 2)) as [Hlo _].
  apply IZR_le.
  destruct (Z.le_gt_cases (Int_part (x + / 2)) k) as [Hle | Hgt]; [exact Hle |].
  exfalso.
  assert (Hz : (k + 1 <= Int_part (x + / 2))%Z) by lia.
  apply IZR_le in Hz. rewrite plus_IZR in Hz. lra.
Qed.

Lemma Math_round_idem (x : R) : Math_round (Math_round x) = Math_round x.
Proof. unfold Math_round at 2 3. apply Math_round_IZR. Qed.

Lemma log2_10_tight : Math_log2 10 < 1661 / 500.
Proof.
  unfold Math_log2.
  pose proof (logb_upper 2 10 1 1661 0 500) as H.
  rewrite !INR_IZR_INZ in H.
  change (Z.of_nat 500) with 500%Z in H.
  change (Z.of_nat 1661) with 1661%Z in H.
  change (Z.of_nat 0) with 0%Z in H.
  assert (500 * logb 2 (10 / 1) < 1661 - 0) as H'
    by (apply H; [lia | lia | lia | vm_compute; reflexivity]).
  replace (10 / 1) with 10 in H' by lra. lra.
Qed.

(** ** The value shown for a score *)

(** X1.  Every finite score the function returns is an integer, so the
    second [Math.round] the views apply before printing changes
    nothing: what is shown is the score itself, and the infinity sign
    exactly for the score [Infinity]. *)
Theorem shown_score_is_score (p : CryptoProject) :
  (forall s, auraScore (InfrastructureComparison.calculateAuraScore p) = Num s ->
             exists k : Z, s = IZR k) /\
  InfrastructureComparison.shownAura
    (InfrastructureComparison.calculateAuraScore p)
  = match auraScore (InfrastructureComparison.calculateAuraScore p) with
    | Infinity => None
    | Num s => Some s
    end.
Proof.
  assert (E : auraScore (InfrastructureComparison.calculateAuraScore p)
              = auraScore (calculateAuraScore p)).
  { unfold InfrastructureComparison.calculateAuraScore, calculateAuraScore,
      rawRatio, bandScore, weightedAnnualRevenue.
    destruct (category p); reflexivity. }
  assert (Hint : forall s, auraScore (calculateAuraScore p) = Num s ->
                           exists k : Z, s = IZR k).
  { intros s Hs. destruct (Req_dec_T (amountRaised p) 0) as [Hz | Hnz].
    - rewrite (auraScore_bootstrapped p Hz) in Hs.
      destruct (Rlt_dec 0 (weightedAnnualRevenue p)); [discriminate |].
      injection Hs as <-. now exists 0%Z.
    - rewrite (auraScore_funded p Hnz) in Hs. injection Hs as <-.
      unfold Math_round. eexists. reflexivity. }
  unfold InfrastructureComparison.shownAura. rewrite E. split.
  - exact Hint.
  - destruct (auraScore (calculateAuraScore p)) as [s |] eqn:Hs; [| reflexivity].
    destruct (Hint s eq_refl) as [k ->]. now rewrite Math_round_IZR.
Qed.

(** ** What the score depends on *)

Lemma auraScore_depends_on (p q : CryptoProject) :
  amountRaised q = amountRaised p ->
  weightedAnnualRevenue q = weightedAnnualRevenue p ->
  auraScore (calculateAuraScore q) = auraScore (calculateAuraScore p).
Proof.
  intros Ha Hw. unfold calculateAuraScore, rawRatio. cbn [auraScore].
  now rewrite Ha, Hw.
Qed.

(** X2.  For the categories [Application], [dApp] and [Stablecoins] the
    application fees play no part: two such projects with the same
    amount raised and the same annualized revenue, an absent revenue
    counting as 0, have the same score whatever their fees. *)
Theorem apps_ignore_ecosystem_fees (p q : CryptoProject) :
  isApp (category p) = true ->
  isApp (category q) = true ->
  amountRaised q = amountRaised p ->
  orZero (annualizedRevenue q) = orZero (annualizedRevenue p) ->
  auraScore (calculateAuraScore q) = auraScore (calculateAuraScore p).
Proof.
  intros Hp Hq Ha Hr. apply auraScore_depends_on; [exact Ha |].
  unfold weightedAnnualRevenue. now rewrite Hp, Hq, Hr.
Qed.

Lemma apps_ignore_ecosystem_fees_witness :
  annualizedAppFees Samples.appTenth = Some 1000 /\
  annualizedAppFees Samples.appTenthNoFees = None /\
  auraScore (calculateAuraScore Samples.appTenthNoFees)
  = auraScore (calculateAuraScore Samples.appTenth).
Proof.
  split; [reflexivity |]. split; [reflexivity |].
  apply (apps_ignore_ecosystem_fees Samples.appTenth Samples.appTenthNoFees);
    reflexivity.
Defined.

(** ** The score as a function of the ratio *)

(** X4.  The ranges the rounded score takes, band by band, as a
    function of the ratio the code has computed: [-1000] at a ratio of
    0 or less, at most [-800] below 0.001, then [[-350, -200]],
    [[0, 200]], [[400, 700]], [[700, 2029]], [[2000, 3993]], and at
    least [5000] from a ratio of 100 on. *)
Theorem rounded_band_ranges (r : R) :
  (r <= 0 -> Math_round (bandScore r) = -1000) /\
  (0 < r < 1 / 1000 -> Math_round (bandScore r) <= -800) /\
  (1 / 1000 <= r < 1 / 100 -> -350 <= Math_round (bandScore r) <= -200) /\
  (1 / 100 <= r < 1 / 10 -> 0 <= Math_round (bandScore r) <= 200) /\
  (1 / 10 <= r < 1 -> 400 <= Math_round (bandScore r) <= 700) /\
  (1 <= r < 10 -> 700 <= Math_round (bandScore r) <= 2029) /\
  (10 <= r < 100 -> 2000 <= Math_round (bandScore r) <= 3993) /\
  (100 <= r -> 5000 <= Math_round (bandScore r)).
Proof.
  pose proof log2_10_tight as HL.
  repeat match goal with
         | |- (_ -> _) /\ _ => split
         end;
    intros H; try split.
  - rewrite bandScore_nonpos by exact H. apply Math_round_IZR.
  - apply Math_round_below. pose proof (band1_range _ H). lra.
  - apply Math_round_ge. pose proof (band2_range _ H). lra.
  - apply Math_round_below. pose proof (band2_range _ H). lra.
  - apply Math_round_ge. pose proof (band3_range _ H). lra.
  - apply Math_round_below. pose proof (band3_range _ H). lra.
  - apply Math_round_ge. pose proof (band4_range _ H). lra.
  - apply Math_round_below. pose proof (band4_range _ H). lra.
  - apply Math_round_ge. pose proof (band5_range _ H). lra.
  - apply Math_round_below. pose proof (band5_range _ H). lra.
  - apply Math_round_ge. pose proof (band6_range _ H). lra.
  - apply Math_round_below. pose proof (band6_range _ H). lra.
  - apply Math_round_ge. pose proof (band7_range _ H). lra.
Qed.

(** Either side of a ratio of one percent. *)
Lemma rounded_band_sides (r : R) :
  (r < 1 / 100 -> Math_round (bandScore r) <= -200) /\
  (1 / 100 <= r -> 0 <= Math_round (bandScore r)).
Proof.
  split; intros H.
  - apply Math_round_below.
    destruct (Rle_dec r 0) as [H0 | H0].
    + rewrite bandScore_nonpos by exact H0. lra.
    + destruct (Rlt_dec r (1 / 1000)) as [H1 | H1].
      * assert (bandScore r < -800) by (apply band1_range; lra). lra.
      * assert (-350 <= bandScore r < -200) by (apply band2_range; lra). lra.
  - apply Math_round_ge.
    assert (D : 1 / 100 <= r < 1 / 10 \/ 1 / 10 <= r < 1 \/
                1 <= r < 10 \/ 10 <= r < 100 \/ 100 <= r) by lra.
    destruct D as [D | [D | [D | [D | D]]]].
    + pose proof (band3_range _ D). lra.
    + pose proof (band4_range _ D). lra.
    + pose proof (band5_range _ D). lra.
    + pose proof (band6_range _ D). lra.
    + pose proof (band7_range _ D). lra.
Qed.

(** X5.  As a function of the ratio the code has computed, the rounded
    score is negative exactly when the ratio is below one percent. *)
Theorem rounded_band_negative_iff (r : R) :
  Math_round (bandScore r) < 0 <-> r < 1 / 100.
Proof.
  destruct (rounded_band_sides r) as [Hneg Hpos]. split; intros H.
  - destruct (Rlt_dec r (1 / 100)) as [Hlt | Hge]; [exact Hlt |].
    assert (0 <= Math_round (bandScore r)) by (apply Hpos; lra). lra.
  - assert (Math_round (bandScore r) <= -200) by (now apply Hneg). lra.
Qed.

(** X6.  As a function of the ratio the code has computed, the rounded
    score is monotone on either side of 10: inside every band and
    across every band boundary but the one at 10. *)
Theorem rounded_band_monotone_off_10 (r1 r2 : R) :
  0 < r1 -> r1 <= r2 -> (r2 < 10 \/ 10 <= r1) ->
  Math_round (bandScore r1) <= Math_round (bandScore r2).
Proof.
  intros H1 H12 Hside.
  apply Math_round_mono.
  destruct Hside as [Hlow | Hhigh].
  - apply bandScore_mono_away_from_10; [exact H1 | exact H12 | now left].
  - apply bandScore_mono_away_from_10; [exact H1 | exact H12 | now right].
Qed.

Lemma rounded_band_monotone_off_10_witness :
  Math_round (bandScore (1 / 10)) <= Math_round (bandScore (17 / 100)).
Proof.
  apply (rounded_band_monotone_off_10 (1 / 10) (17 / 100)); [lra | lra |].
  left. lra.
Defined.

End ScoreProperties.

(* ================================================================== *)
(** * Ranking and the rank table *)
(* ================================================================== *)

Module RankingProperties.
Import JS ArrayFacts Dashboard AuraFacts AuraScoreSpec.

(** ** Stability of [sort] *)

Section Stability.
Context {A : Type}.
Variable before : A -> A -> bool.
Variable P : A -> bool.

Lemma sortInsert_filter (x : A) (l : list A) :
  (forall y, In y l -> P x = true -> P y = true -> before x y = true) ->
  filter P (sortInsert before x l) = filter P (x :: l).
Proof.
  induction l as [| y l IH]; intros Htie; [reflexivity |].
  cbn [sortInsert]. destruct (before x y) eqn:Hxy; [reflexivity |].
  cbn [filter]. rewrite IH by (intros z Hz; apply Htie; now right).
  cbn [filter]. destruct (P x) eqn:Px; [| reflexivity].
  destruct (P y) eqn:Py; [| reflexivity].
  rewrite (Htie y (or_introl eq_refl) eq_refl Py) in Hxy. discriminate.
Qed.

(** The elements of a class of mutually tied elements come out of
    [sort] in the order they went in. *)
Lemma sort_filter_stable (l : list A) :
  (forall x y, In x l -> In y l -> P x = true -> P y = true ->
               before x y = true) ->
  filter P (sort before l) = filter P l.
Proof.
  induction l as [| x l IH]; intros Htie; [reflexivity |].
  cbn [sort fold_right]. fold (sort before l).
  rewrite sortInsert_filter.
  - cbn [filter]. rewrite IH; [reflexivity |].
    intros a b Ha Hb. apply Htie; now right.
  - intros y Hy Px Py. apply Htie; [now left | | exact Px | exact Py].
    right. exact (Permutation_in _ (sort_perm before l) Hy).
Qed.
End Stability.

(** ** The order of the ranking *)

(** X7.  The ranking holds exactly the scored projects, and it is in
    descending order of score: of two entries the earlier one has
    score [Infinity] or both are finite and the earlier score is at
    least the later one. *)
Theorem ranking_descending (projects : list CryptoProject) :
  Permutation (sortedProjects projects) (map calculateAuraScore projects) /\
  forall i j a b,
    (i < j)%nat ->
    nth_error (sortedProjects projects) i = Some a ->
    nth_error (sortedProjects projects) j = Some b ->
    match auraScore a, auraScore b with
    | Infinity, _ => True
    | Num _, Infinity => False
    | Num sa, Num sb => (sb <= sa)%R
    end.
Proof.
  split; [apply sortedProjects_perm |].
  intros i j a b Hij Hi Hj.
  apply auraBefore_spec.
  exact (StronglySorted_nth_error _ _ (sortedProjects_sorted projects)
           i j a b Hij Hi Hj).
Qed.

(** X8.  Ties keep the order of the input: the projects with score
    [Infinity] stand in the ranking in the order in which the endpoint
    listed them, and so do the projects that share a finite score. *)
Theorem ranking_stable (projects : list CryptoProject) :
  filter (fun a => match auraScore a with Infinity => true | Num _ => false end)
         (sortedProjects projects)
  = filter (fun a => match auraScore a with Infinity => true | Num _ => false end)
           (map calculateAuraScore projects) /\
  forall s : R,
    filter (fun a => match auraScore a with
                     | Num x => if Req_dec_T x s then true else false
                     | Infinity => false
                     end)
           (sortedProjects projects)
    = filter (fun a => match auraScore a with
                       | Num x => if Req_dec_T x s then true else false
                       | Infinity => false
                       end)
             (map calculateAuraScore projects).
Proof.
  split; [| intros s]; apply sort_filter_stable;
    intros x y _ _ Hx Hy; apply auraBefore_spec;
    destruct (auraScore x) as [sx |], (auraScore y) as [sy |];
    try discriminate; try exact I.
  destruct (Req_dec_T sx s), (Req_dec_T sy s); try discriminate.
  subst. apply Rle_refl.
Qed.

(** ** The rank table *)

Local Open Scope Z_scope.

Lemma setRank_same (ranks : Ranks) (key : string) (v : Z) :
  key <> "__proto__"%string -> setRank ranks key v key = Some v.
Proof.
  intros H. unfold setRank.
  destruct (String.eqb_spec key "__proto__"); [contradiction |].
  now rewrite String.eqb_refl.
Qed.

Lemma setRank_other (ranks : Ranks) (key k : string) (v : Z) :
  k <> key -> setRank ranks key v k = ranks k.
Proof.
  intros H. unfold setRank.
  destruct (String.eqb key "__proto__"); [reflexivity |].
  destruct (String.eqb_spec k key); [contradiction | reflexivity].
Qed.

Lemma setRank_proto (ranks : Ranks) (key : string) (v : Z) :
  setRank ranks key v "__proto__"%string = ranks "__proto__"%string.
Proof.
  unfold setRank.
  destruct (String.eqb_spec key "__proto__") as [-> | Hk]; [reflexivity |].
  destruct (String.eqb_spec "__proto__" key) as [<- | _];
    [contradiction | reflexivity].
Qed.

Abbreviation names l := (map (fun a : ProjectWithAuraScore => name (project a)) l).

(** A key that names no entry keeps what the table held for it, and so
    does the key [__proto__] whatever the names. *)
Lemma assignRanks_absent (l : list ProjectWithAuraScore) :
  forall (index : Z) (ranks : Ranks) (k : string),
    ~ In k (names l) \/ k = "__proto__"%string ->
    assignRanks l index ranks k = ranks k.
Proof.
  induction l as [| p l IH]; intros index ranks k Hk; [reflexivity |].
  cbn [assignRanks]. rewrite IH.
  - destruct Hk as [Hk | ->]; [| apply setRank_proto].
    apply setRank_other. intros ->. apply Hk. now left.
  - destruct Hk as [Hk | Hk]; [left | now right].
    intros H. apply Hk. now right.
Qed.

(** With distinct names the entry at offset [j] gets [index + j + 1]. *)
Lemma assignRanks_position (l : list ProjectWithAuraScore) :
  forall (index : Z) (ranks : Ranks) (j : nat) (a : ProjectWithAuraScore),
    NoDup (names l) ->
    nth_error l j = Some a ->
    name (project a) <> "__proto__"%string ->
    assignRanks l index ranks (name (project a)) = Some (index + Z.of_nat j + 1).
Proof.
  induction l as [| p l IH]; intros index ranks j a Hnd Hj Hproto.
  - destruct j; discriminate.
  - cbn [map] in Hnd. apply NoDup_cons_iff in Hnd as [Hp Hnd].
    cbn [assignRanks]. destruct j as [| j]; cbn in Hj.
    + injection Hj as <-.
      rewrite assignRanks_absent by (now left).
      rewrite setRank_same by exact Hproto. f_equal. lia.
    + rewrite (IH _ _ j a Hnd Hj Hproto). f_equal. lia.
Qed.

(** Whatever the names, a key other than [__proto__] that names an
    entry gets a number between [index + 1] and [index + length l]. *)
Lemma assignRanks_present (l : list ProjectWithAuraScore) :
  forall (index : Z) (ranks : Ranks) (k : string),
    In k (names l) -> k <> "__proto__"%string ->
    exists v, assignRanks l index ranks k = Some v /\
              index + 1 <= v <= index + Z.of_nat (length l).
Proof.
  induction l as [| p l IH]; intros index ranks k Hk Hproto; [contradiction |].
  cbn [assignRanks].
  destruct (in_dec string_dec k (names l)) as [Hin | Hout].
  - destruct (IH (index + 1) (setRank ranks (name (project p)) (index + 1))
                k Hin Hproto) as (v & Hv & Hb).
    exists v. split; [exact Hv |]. cbn [length]. lia.
  - rewrite assignRanks_absent by (now left).
    destruct Hk as [<- | Hk]; [| contradiction].
    rewrite setRank_same by exact Hproto.
    eexists. split; [reflexivity |]. cbn [length]. lia.
Qed.

Lemma names_sortedProjects (projects : list CryptoProject) :
  Permutation (names (sortedProjects projects)) (map name projects).
Proof.
  eapply perm_trans.
  - apply Permutation_map, sortedProjects_perm.
  - rewrite map_map. cbn. apply Permutation_refl.
Qed.

(** The own properties of the rank table. *)
Lemma auraRanks_own (projects : list CryptoProject) (key : string) :
  (In key (map name projects) -> key <> "__proto__"%string ->
   exists v, auraRanks (Some projects) key = Some v /\
             1 <= v <= Z.of_nat (length projects)) /\
  (~ In key (map name projects) \/ key = "__proto__"%string ->
   auraRanks (Some projects) key = None).
Proof.
  unfold auraRanks. split.
  - intros Hin Hproto.
    assert (Hin' : In key (names (sortedProjects projects)))
      by exact (Permutation_in _ (Permutation_sym (names_sortedProjects projects)) Hin).
    destruct (assignRanks_present _ 0 noRanks key Hin' Hproto) as (v & Hv & Hb).
    exists v. split; [exact Hv |].
    unfold sortedProjects in Hb. rewrite sort_length, length_map in Hb. lia.
  - intros Hout. rewrite assignRanks_absent; [reflexivity |].
    destruct Hout as [Hout | Hout]; [left | now right].
    intros H. apply Hout.
    exact (Permutation_in _ (names_sortedProjects projects) H).
Qed.

(** X9.  When the project names are distinct, reading the rank table
    at the name of a project, other than the name [__proto__] under
    which nothing can be stored, gives its 1-based position in the
    ranking. *)
Theorem aura_rank_is_position (projects : list CryptoProject)
    (j : nat) (a : ProjectWithAuraScore) :
  NoDup (map name projects) ->
  nth_error (sortedProjects projects) j = Some a ->
  name (project a) <> "__proto__"%string ->
  readRank (auraRanks (Some projects)) (name (project a))
  = Some (rankNumber (Z.of_nat j + 1)).
Proof.
  intros Hnd Hj Hproto. unfold readRank, auraRanks.
  rewrite (assignRanks_position _ 0 noRanks j a);
    [do 2 f_equal; lia | | exact Hj | exact Hproto].
  eapply Permutation_NoDup; [| exact Hnd].
  apply Permutation_sym, names_sortedProjects.
Qed.

(** X10.  Reading the rank table gives a number, between 1 and the
    number of projects, exactly at the names of the projects other
    than [__proto__]; at every other key it gives what a plain object
    inherits: a function or object at the twelve property names of
    [Object.prototype], and [undefined] elsewhere.  A response without
    projects gives the empty object, read in the same way. *)
Theorem aura_ranks_domain (projects : list CryptoProject) (key : string) :
  (In key (map name projects) -> key <> "__proto__"%string ->
   exists v, readRank (auraRanks (Some projects)) key = Some (rankNumber v) /\
             1 <= v <= Z.of_nat (length projects)) /\
  (~ In key (map name projects) \/ key = "__proto__"%string ->
   readRank (auraRanks (Some projects)) key
   = if JS.inherited key then Some inheritedObject else None) /\
  readRank (auraRanks None) key
  = (if JS.inherited key then Some inheritedObject else None).
Proof.
  destruct (auraRanks_own projects key) as [Hin Hout].
  unfold readRank. split; [| split].
  - intros H Hproto. destruct (Hin H Hproto) as (v & -> & Hb).
    exists v. now split.
  - intros H. now rewrite (Hout H).
  - reflexivity.
Qed.

Lemma compareAura_strict (a b : ProjectWithAuraScore) :
  (compareAura a b < 0)%R -> auraBefore b a = false /\ a <> b.
Proof.
  intros H. split.
  - unfold auraBefore.
    destruct (Rle_dec (compareAura b a) 0) as [Hle | Hgt]; [| reflexivity].
    exfalso. unfold compareAura in *.
    destruct (auraScore a), (auraScore b); lra.
  - intros <-. unfold compareAura in H. destruct (auraScore a); lra.
Qed.

(** X11.  A project that the comparator puts strictly first has the
    smaller rank number: with distinct names, neither of them
    [__proto__], a higher score, or the score [Infinity] against a
    finite one, means a smaller number read from the rank table. *)
Theorem better_score_smaller_rank (projects : list CryptoProject)
    (p q : CryptoProject) :
  NoDup (map name projects) ->
  In p projects -> In q projects ->
  name p <> "__proto__"%string -> name q <> "__proto__"%string ->
  (compareAura (calculateAuraScore p) (calculateAuraScore q) < 0)%R ->
  exists rp rq,
    readRank (auraRanks (Some projects)) (name p) = Some (rankNumber rp) /\
    readRank (auraRanks (Some projects)) (name q) = Some (rankNumber rq) /\
    rp < rq.
Proof.
  intros Hnd Hp Hq Hpp Hqp Hcmp.
  assert (Hnd' : NoDup (names (sortedProjects projects))).
  { eapply Permutation_NoDup; [| exact Hnd].
    apply Permutation_sym, names_sortedProjects. }
  assert (Hpos : forall x, In x projects ->
            exists i, nth_error (sortedProjects projects) i
                      = Some (calculateAuraScore x)).
  { intros x Hx. apply In_nth_error.
    apply (Permutation_in _ (Permutation_sym (sortedProjects_perm projects))).
    now apply in_map. }
  destruct (Hpos p Hp) as [i Hi]. destruct (Hpos q Hq) as [j Hj].
  exists (Z.of_nat i + 1), (Z.of_nat j + 1).
  unfold readRank, auraRanks.
  pose proof (assignRanks_position _ 0 noRanks i _ Hnd' Hi Hpp) as Ri.
  pose proof (assignRanks_position _ 0 noRanks j _ Hnd' Hj Hqp) as Rj.
  cbn [project calculateAuraScore] in Ri, Rj.
  rewrite Ri, Rj. repeat split.
  destruct (compareAura_strict _ _ Hcmp) as [Hnot Hneq].
  destruct (Nat.lt_trichotomy i j) as [Hlt | [Heq | Hgt]]; [lia | |].
  - subst j. rewrite Hi in Hj. injection Hj as Hj. congruence.
  - pose proof (StronglySorted_nth_error _ _ (sortedProjects_sorted projects)
                  j i _ _ Hgt Hj Hi) as H.
    cbn beta in H. rewrite H in Hnot. discriminate.
Qed.


(** ** A ranking of two *)

Lemma sample_names_distinct :
  NoDup (map name [Samples.bootstrapped; Samples.chain170]).
Proof.
  constructor; [intros [H | []]; discriminate H |].
  constructor; [intros [] | constructor].
Qed.

Lemma sample_comparison :
  (compareAura (calculateAuraScore Samples.bootstrapped)
               (calculateAuraScore Samples.chain170) < 0)%R.
Proof.
  unfold compareAura.
  rewrite (proj1 bootstrapped_samples).
  rewrite (layer1_example_469 Samples.chain170) by reflexivity.
  lra.
Qed.

Lemma sample_ranking :
  sortedProjects [Samples.bootstrapped; Samples.chain170]
  = [calculateAuraScore Samples.bootstrapped;
     calculateAuraScore Samples.chain170].
Proof.
  assert (Hb : auraBefore (calculateAuraScore Samples.bootstrapped)
                          (calculateAuraScore Samples.chain170) = true).
  { apply auraBefore_spec. now rewrite (proj1 bootstrapped_samples). }
  unfold sortedProjects, sort. cbn [map fold_right sortInsert].
  now rewrite Hb.
Qed.

Lemma aura_rank_is_position_witness :
  readRank (auraRanks (Some [Samples.bootstrapped; Samples.chain170]))
           (name (project (calculateAuraScore Samples.chain170)))
  = Some (rankNumber (Z.of_nat 1 + 1)).
Proof.
  apply (aura_rank_is_position [Samples.bootstrapped; Samples.chain170] 1
           (calculateAuraScore Samples.chain170)).
  - exact sample_names_distinct.
  - rewrite sample_ranking. reflexivity.
  - discriminate.
Defined.

Lemma better_score_smaller_rank_witness :
  exists rp rq,
    readRank (auraRanks (Some [Samples.bootstrapped; Samples.chain170]))
             (name Samples.bootstrapped) = Some (rankNumber rp) /\
    readRank (auraRanks (Some [Samples.bootstrapped; Samples.chain170]))
             (name Samples.chain170) = Some (rankNumber rq) /\
    rp < rq.
Proof.
  apply (better_score_smaller_rank [Samples.bootstrapped; Samples.chain170]
           Samples.bootstrapped Samples.chain170).
  - exact sample_names_distinct.
  - now left.
  - right. now left.
  - discriminate.
  - discriminate.
  - exact sample_comparison.
Defined.

End RankingProperties.

(* ================================================================== *)
(** * Further properties of the leaderboard *)
(* ================================================================== *)

Module LeaderboardProperties.
Import JS ArrayFacts SliceFacts BuilderLeaderboard LeaderboardSpec.
Import Lqa.
Local Open Scope Q_scope.

(** ** Sorting by a numeric key *)

Section Keyed.
Context {A : Type}.
Variable key : A -> Q.
Variable before : A -> A -> bool.
Hypothesis before_key : forall a b, before a b = true <-> key a <= key b.

Lemma keyed_sort_sorted (l : list A) :
  StronglySorted (fun a b => key a <= key b) (sort before l).
Proof.
  apply StronglySorted_weaken with (R1 := fun a b => before a b = true).
  - intros a b. apply before_key.
  - apply sort_sorted.
    + intros a b Hab. apply before_key.
      assert (Hn : ~ key a <= key b)
        by (rewrite <- before_key, Hab; discriminate).
      lra.
    + intros a b c. rewrite !before_key. lra.
Qed.
End Keyed.

(** [sort] only consults the comparator on the elements of the array. *)
Section SortExt.
Context {A : Type}.
Variables before before' : A -> A -> bool.

Lemma sortInsert_ext_in (x : A) (l : list A) :
  (forall y, In y l -> before x y = before' x y) ->
  sortInsert before x l = sortInsert before' x l.
Proof.
  induction l as [| y l IH]; intros H; [reflexivity |].
  cbn [sortInsert]. rewrite (H y) by now left.
  destruct (before' x y); [reflexivity |].
  f_equal. apply IH. intros z Hz. apply H. now right.
Qed.

Lemma sort_ext_in (l : list A) :
  (forall a b, In a l -> In b l -> before a b = before' a b) ->
  sort before l = sort before' l.
Proof.
  induction l as [| x l IH]; intros H; [reflexivity |].
  cbn [sort fold_right]. fold (sort before l). fold (sort before' l).
  rewrite IH by (intros a b Ha Hb; apply H; now right).
  apply sortInsert_ext_in. intros y Hy. apply H; [now left |].
  right. exact (Permutation_in _ (sort_perm before' l) Hy).
Qed.
End SortExt.

Section Table.
Variable localeCompare : string -> string -> Z.
Variable auraRanks : string -> option RankEntry.

Local Abbreviation sortedBuilders := (sortedBuilders localeCompare auraRanks).
Local Abbreviation paginatedBuilders := (paginatedBuilders localeCompare auraRanks).
Local Abbreviation builderBefore := (builderBefore localeCompare auraRanks).
Local Abbreviation totalPages := (totalPages localeCompare auraRanks).
Local Abbreviation displayName :=
  (fun b => orString (builderName b) (builderCode b)).
(** The number a builder sorts by in the aura-rank column when the
    lookup of its name is a number or [undefined]. *)
Local Abbreviation auraKey :=
  (fun b => match auraRanks (displayName b) with
            | Some (rankNumber r) => if (r =? 0)%Z then 999 else inject_Z r
            | _ => 999
            end).

Lemma builderBefore_revenue (d : SortDirection) (page : Z) (a b : BuilderRevenue) :
  builderBefore (mkState F_totalRevenue d page) a b = true <->
  match d with
  | asc => totalRevenue a <= totalRevenue b
  | desc => totalRevenue b <= totalRevenue a
  end.
Proof.
  unfold BuilderLeaderboard.builderBefore, compareBuilders. cbn.
  rewrite Qle_bool_iff. destruct d; split; intros H; lra.
Qed.

Lemma rankOr999_number (b : BuilderRevenue) :
  auraRanks (displayName b) <> Some inheritedObject ->
  rankOr999 auraRanks (displayName b) = anyNumber (auraKey b).
Proof.
  intros H. unfold rankOr999.
  destruct (auraRanks _) as [[r |] |]; [| contradiction | reflexivity].
  now destruct (r =? 0)%Z.
Qed.

Lemma builderBefore_auraRank (d : SortDirection) (page : Z) (a b : BuilderRevenue) :
  auraRanks (displayName a) <> Some inheritedObject ->
  auraRanks (displayName b) <> Some inheritedObject ->
  builderBefore (mkState F_auraRank d page) a b
  = Qle_bool (match d with
              | asc => auraKey a - auraKey b
              | desc => auraKey b - auraKey a
              end) 0.
Proof.
  intros Ha Hb.
  unfold BuilderLeaderboard.builderBefore, compareBuilders.
  cbn [sortField sortDirection].
  rewrite (rankOr999_number a Ha), (rankOr999_number b Hb).
  now destruct d.
Qed.

Lemma aura_sort_ordered (d : SortDirection) (page : Z)
    (builders : list BuilderRevenue) :
  (forall b, In b builders -> auraRanks (displayName b) <> Some inheritedObject) ->
  StronglySorted
    (fun a b => match d with
                | asc => auraKey a <= auraKey b
                | desc => auraKey b <= auraKey a
                end)
    (sortedBuilders (mkState F_auraRank d page) builders).
Proof.
  intros Hplain. unfold BuilderLeaderboard.sortedBuilders.
  rewrite (sort_ext_in _
             (fun a b => Qle_bool (match d with
                                   | asc => auraKey a - auraKey b
                                   | desc => auraKey b - auraKey a
                                   end) 0)).
  - destruct d.
    + apply (keyed_sort_sorted auraKey).
      intros a b. rewrite Qle_bool_iff. split; intros H; lra.
    + apply StronglySorted_weaken
        with (R1 := fun a b => - auraKey a <= - auraKey b);
        [intros a b H; lra |].
      apply (keyed_sort_sorted (fun b => - auraKey b)).
      intros a b. rewrite Qle_bool_iff. split; intros H; lra.
  - intros a b Ha Hb. apply builderBefore_auraRank; now apply Hplain.
Qed.

(** X13.  Sorted by total revenue or by aura rank, the table holds the
    same builders; by revenue it is in the order of that column,
    ascending for [asc], descending for [desc]; by aura rank likewise,
    a builder without an aura rank counting as rank 999, provided no
    builder's display name is a property name of [Object.prototype]
    (which would make its sort key no number). *)
Theorem numeric_columns_sorted (d : SortDirection) (page : Z)
    (builders : list BuilderRevenue) :
  (Permutation (sortedBuilders (mkState F_totalRevenue d page) builders) builders /\
   StronglySorted
     (fun a b => match d with
                 | asc => totalRevenue a <= totalRevenue b
                 | desc => totalRevenue b <= totalRevenue a
                 end)
     (sortedBuilders (mkState F_totalRevenue d page) builders)) /\
  (Permutation (sortedBuilders (mkState F_auraRank d page) builders) builders /\
   ((forall b, In b builders ->
               auraRanks (displayName b) <> Some inheritedObject) ->
    StronglySorted
      (fun a b => match d with
                  | asc => auraKey a <= auraKey b
                  | desc => auraKey b <= auraKey a
                  end)
      (sortedBuilders (mkState F_auraRank d page) builders))).
Proof.
  split; (split; [apply sort_perm |]).
  - destruct d.
    + apply (keyed_sort_sorted (fun b => totalRevenue b)).
      intros a b. apply (builderBefore_revenue asc).
    + apply StronglySorted_weaken
        with (R1 := fun a b => - totalRevenue a <= - totalRevenue b);
        [intros a b H; lra |].
      apply (keyed_sort_sorted (fun b => - totalRevenue b)).
      intros a b. rewrite (builderBefore_revenue desc). split; intros H; lra.
  - intros Hplain. now apply aura_sort_ordered.
Qed.

Lemma auraBadge_key (b : BuilderRevenue) :
  auraKey b = match auraBadge auraRanks b with
              | Some (rankNumber r) => inject_Z r
              | _ => 999
              end.
Proof.
  unfold auraBadge.
  destruct (auraRanks _) as [[r |] |]; try reflexivity.
  now destruct (r =? 0)%Z.
Qed.

(** X14.  With the table sorted by aura rank ascending and no builder's
    display name a property name of [Object.prototype], every builder
    that shows a rank below 999 stands before every builder that shows
    "N/A". *)
Theorem ranked_before_unranked (page : Z) (builders : list BuilderRevenue)
    (i j : nat) (a b : BuilderRevenue) (r : Z) :
  (forall x, In x builders -> auraRanks (displayName x) <> Some inheritedObject) ->
  nth_error (sortedBuilders (mkState F_auraRank asc page) builders) i = Some a ->
  nth_error (sortedBuilders (mkState F_auraRank asc page) builders) j = Some b ->
  auraBadge auraRanks a = Some (rankNumber r) ->
  (r < 999)%Z ->
  auraBadge auraRanks b = None ->
  (i < j)%nat.
Proof.
  intros Hplain Hi Hj Ha Hr Hb.
  assert (Ka : auraKey a = inject_Z r) by now rewrite auraBadge_key, Ha.
  assert (Kb : auraKey b = 999) by now rewrite auraBadge_key, Hb.
  destruct (Nat.lt_trichotomy i j) as [Hlt | [Heq | Hgt]]; [exact Hlt | |].
  - subst j. rewrite Hi in Hj. injection Hj as <-.
    rewrite Ha in Hb. discriminate.
  - exfalso.
    pose proof (aura_sort_ordered asc page builders Hplain) as Hs.
    pose proof (StronglySorted_nth_error _ _ Hs j i b a Hgt Hj Hi) as H.
    cbn beta in H. rewrite Ka, Kb in H.
    unfold Qle, inject_Z in H. cbn in H. lia.
Qed.

End Table.

Lemma sample_builders_plain (x : BuilderRevenue) :
  In x [Samples.newcomer; Samples.highEarner; Samples.lowEarner] ->
  Samples.sampleRanks (orString (builderName x) (builderCode x))
  <> Some inheritedObject.
Proof.
  intros [<- | [<- | [<- | []]]]; vm_compute; discriminate.
Qed.

Lemma numeric_columns_sorted_witness :
  sortedBuilders Samples.codeUnitCompare Samples.sampleRanks
    (mkState F_auraRank asc 1)
    [Samples.newcomer; Samples.highEarner; Samples.lowEarner]
  = [Samples.lowEarner; Samples.highEarner; Samples.newcomer] /\
  StronglySorted
    (fun a b =>
       match Samples.sampleRanks (orString (builderName a) (builderCode a)) with
       | Some (rankNumber r) => if (r =? 0)%Z then 999 else inject_Z r
       | _ => 999
       end
       <= match Samples.sampleRanks (orString (builderName b) (builderCode b)) with
          | Some (rankNumber r) => if (r =? 0)%Z then 999 else inject_Z r
          | _ => 999
          end)
    (sortedBuilders Samples.codeUnitCompare Samples.sampleRanks
       (mkState F_auraRank asc 1)
       [Samples.newcomer; Samples.highEarner; Samples.lowEarner]).
Proof.
  split; [reflexivity |].
  exact (proj2 (proj2 (numeric_columns_sorted Samples.codeUnitCompare
                         Samples.sampleRanks asc 1
                         [Samples.newcomer; Samples.highEarner; Samples.lowEarner]))
           sample_builders_plain).
Defined.

Lemma ranked_before_unranked_witness :
  nth_error
    (sortedBuilders Samples.codeUnitCompare Samples.sampleRanks
       (mkState F_auraRank asc 1)
       [Samples.newcomer; Samples.highEarner; Samples.lowEarner]) 0
  = Some Samples.lowEarner /\
  nth_error
    (sortedBuilders Samples.codeUnitCompare Samples.sampleRanks
       (mkState F_auraRank asc 1)
       [Samples.newcomer; Samples.highEarner; Samples.lowEarner]) 2
  = Some Samples.newcomer /\
  (0 < 2)%nat.
Proof.
  split; [reflexivity |]. split; [reflexivity |].
  apply (ranked_before_unranked Samples.codeUnitCompare Samples.sampleRanks 1
           [Samples.newcomer; Samples.highEarner; Samples.lowEarner]
           0 2 Samples.lowEarner Samples.newcomer 1);
    [exact sample_builders_plain
    | reflexivity | reflexivity | reflexivity | lia | reflexivity].
Defined.

(** A display name that is a property name of [Object.prototype]: the
    lookup is truthy, so a badge is shown, and every comparison with
    that builder is [NaN], so it stays where it was while the others
    are ordered around it. *)
Lemma inherited_name_sample :
  auraBadge Samples.sampleRanks Samples.inheritedName = Some inheritedObject /\
  sortedBuilders Samples.codeUnitCompare Samples.sampleRanks
    (mkState F_auraRank asc 1)
    [Samples.inheritedName; Samples.highEarner; Samples.lowEarner]
  = [Samples.inheritedName; Samples.lowEarner; Samples.highEarner].
Proof. split; reflexivity. Qed.

(** ** The sort headers *)

Lemma SortField_eqb_eq (f g : SortField) : SortField_eqb f g = true <-> f = g.
Proof. destruct f, g; split; intros H; try reflexivity; discriminate. Qed.

(** X15.  A click on a sortable header always leaves the table sorted
    by that field on page 1; the first click on a new field sorts
    descending, and further clicks on the same header alternate the
    direction, so that three clicks do what one click does. *)
Theorem handleSort_cycle (field : SortField) (st : State) :
  sortField (handleSort field st) = field /\
  currentPage (handleSort field st) = 1%Z /\
  (sortField st <> field -> sortDirection (handleSort field st) = desc) /\
  sortDirection (handleSort field (handleSort field st))
  = match sortDirection (handleSort field st) with
    | asc => desc
    | desc => asc
    end /\
  handleSort field (handleSort field (handleSort field st))
  = handleSort field st.
Proof.
  unfold handleSort.
  destruct (SortField_eqb (sortField st) field) eqn:E; cbn [sortField sortDirection currentPage].
  - apply SortField_eqb_eq in E. rewrite E.
    assert (Hr : SortField_eqb field field = true) by now apply SortField_eqb_eq.
    rewrite !Hr. cbn [sortField sortDirection currentPage]. rewrite !Hr.
    cbn [sortField sortDirection currentPage].
    repeat split; try congruence.
    destruct (sortDirection st); reflexivity.
  - assert (Hr : SortField_eqb field field = true) by now apply SortField_eqb_eq.
    rewrite !Hr. cbn [sortField sortDirection currentPage]. rewrite !Hr.
    cbn [sortField sortDirection currentPage].
    repeat split; reflexivity.
Qed.

(** ** Pages *)

Section Chunks.
Context {A : Type}.

Lemma firstn_plus (n m : nat) (l : list A) :
  firstn (n + m) l = firstn n l ++ firstn m (skipn n l).
Proof.
  revert l. induction n as [| n IH]; intros l; [reflexivity |].
  destruct l as [| x l]; cbn.
  - now rewrite firstn_nil.
  - now rewrite IH.
Qed.

(** A slice with non-negative bounds in order, inside the array or not. *)
Lemma slice_from (l : list A) (start stop : Z) :
  (0 <= start <= stop)%Z ->
  slice l start (Some stop)
  = firstn (Z.to_nat (stop - start)) (skipn (Z.to_nat start) l).
Proof.
  intros H. unfold slice. rewrite !relativeIndex_nonneg by lia.
  destruct (Z.le_gt_cases (Z.of_nat (length l)) start) as [H1 | H1].
  - rewrite !Z.min_r by lia.
    rewrite (skipn_all2 (n := Z.to_nat start)) by lia.
    rewrite firstn_nil. replace (_ - _)%Z with 0%Z by lia. reflexivity.
  - rewrite (Z.min_l start) by lia.
    destruct (Z.le_gt_cases (Z.of_nat (length l)) stop) as [H2 | H2].
    + rewrite Z.min_r by lia.
      rewrite !firstn_all2; [reflexivity | |]; rewrite length_skipn; lia.
    + now rewrite Z.min_l by lia.
Qed.

(** The first [k] pages of ten, one after the other. *)
Lemma pages_concat (l : list A) (k : nat) :
  concat (map (fun p => slice l ((Z.of_nat p - 1) * 10) (Some (Z.of_nat p * 10)%Z))
              (seq 1 k))
  = firstn (10 * k) l.
Proof.
  induction k as [| k IH]; [reflexivity |].
  rewrite seq_S, map_app, concat_app, IH. cbn [map concat].
  rewrite app_nil_r, slice_from by lia.
  replace (10 * S k)%nat with (10 * k + 10)%nat by lia.
  rewrite firstn_plus. f_equal. f_equal; [| f_equal]; lia.
Qed.
End Chunks.

Section Pagination.
Variable localeCompare : string -> string -> Z.
Variable auraRanks : string -> option RankEntry.

Local Abbreviation sortedBuilders := (sortedBuilders localeCompare auraRanks).
Local Abbreviation paginatedBuilders := (paginatedBuilders localeCompare auraRanks).
Local Abbreviation totalPages := (totalPages localeCompare auraRanks).
Local Abbreviation paginationShown := (paginationShown localeCompare auraRanks).
Local Abbreviation nextDisabled := (nextDisabled localeCompare auraRanks).
Local Abbreviation clickNext := (clickNext localeCompare auraRanks).
Local Abbreviation dispatch := (dispatch localeCompare auraRanks).
Local Abbreviation run := (run localeCompare auraRanks).

Lemma totalPages_formula (st : State) (builders : list BuilderRevenue) :
  totalPages st builders = ((Z.of_nat (length builders) + 9) / 10)%Z.
Proof.
  unfold BuilderLeaderboard.totalPages, BuilderLeaderboard.sortedBuilders.
  rewrite sort_length.
  unfold Qceiling, Qfloor, Qdiv, Qinv, Qmult, Qopp, inject_Z, itemsPerPage. cbn.
  Z.to_euclidean_division_equations. lia.
Qed.

Lemma page_length (st : State) (builders : list BuilderRevenue) :
  (1 <= currentPage st)%Z ->
  Z.of_nat (length (paginatedBuilders st builders))
  = Z.max 0 (Z.min (currentPage st * 10) (Z.of_nat (length builders))
             - Z.min ((currentPage st - 1) * 10) (Z.of_nat (length builders))).
Proof.
  intros H.
  unfold BuilderLeaderboard.paginatedBuilders, slice, itemsPerPage.
  rewrite !relativeIndex_nonneg by lia.
  rewrite length_firstn, length_skipn.
  unfold BuilderLeaderboard.sortedBuilders. rewrite sort_length. lia.
Qed.

Lemma dispatch_page_bounds (builders : list BuilderRevenue) (st : State) (e : Event) :
  (1 <= currentPage st <= Z.max 1 (totalPages st builders))%Z ->
  (1 <= currentPage (dispatch builders st e)
   <= Z.max 1 (totalPages (dispatch builders st e) builders))%Z.
Proof.
  rewrite !totalPages_formula. intros H.
  destruct e as [field | |]; cbn [BuilderLeaderboard.dispatch].
  - rewrite handleSort_resets_page. lia.
  - destruct (paginationShown st builders && negb (previousDisabled st));
      [cbn; lia | exact H].
  - unfold BuilderLeaderboard.paginationShown.
    rewrite totalPages_formula.
    destruct (Z.ltb_spec 1 ((Z.of_nat (length builders) + 9) / 10));
      cbn [andb]; [| exact H].
    destruct (negb (nextDisabled st builders)); [| exact H].
    unfold BuilderLeaderboard.clickNext. cbn [currentPage].
    rewrite totalPages_formula. lia.
Qed.

Lemma fold_page_bounds (builders : list BuilderRevenue) (events : list Event) :
  forall st,
    (1 <= currentPage st <= Z.max 1 (totalPages st builders))%Z ->
    (1 <= currentPage (fold_left (dispatch builders) events st)
     <= Z.max 1 (totalPages (fold_left (dispatch builders) events st) builders))%Z.
Proof.
  induction events as [| e events IH]; intros st H; [exact H |].
  cbn [fold_left]. apply IH. now apply dispatch_page_bounds.
Qed.

(** X16.  Whatever the user clicks, starting from the initial state,
    the current page stays between 1 and the number of pages (page 1
    when there are none), and the page shown is never empty unless the
    table itself is. *)
Theorem page_stays_in_range (builders : list BuilderRevenue)
    (events : list Event) :
  let st := run builders events in
  (1 <= currentPage st <= Z.max 1 (totalPages st builders))%Z /\
  (builders <> [] -> paginatedBuilders st builders <> []).
Proof.
  cbv zeta.
  assert (H : (1 <= currentPage (run builders events)
               <= Z.max 1 (totalPages (run builders events) builders))%Z).
  { apply fold_page_bounds. rewrite totalPages_formula. cbn. lia. }
  split; [exact H |].
  intros Hne Hempty.
  assert (Hn : (1 <= Z.of_nat (length builders))%Z).
  { destruct builders; [contradiction | cbn [length]; lia]. }
  pose proof (page_length (run builders events) builders ltac:(lia)) as Hl.
  rewrite Hempty in Hl. cbn [length] in Hl.
  rewrite totalPages_formula in H.
  revert H Hl. generalize (currentPage (run builders events)). intros c H Hl.
  Z.to_euclidean_division_equations. lia.
Qed.

(** X17.  The pages cut the sorted table into consecutive pieces: page
    1 to the last page, one after the other, are the sorted table, so
    that every builder is on exactly one page. *)
Theorem pages_cover_table (field : SortField) (d : SortDirection)
    (builders : list BuilderRevenue) :
  concat
    (map (fun p => paginatedBuilders (mkState field d (Z.of_nat p)) builders)
         (seq 1 (Z.to_nat (totalPages (mkState field d 1) builders))))
  = sortedBuilders (mkState field d 1) builders.
Proof.
  rewrite totalPages_formula.
  transitivity
    (firstn (10 * Z.to_nat ((Z.of_nat (length builders) + 9) / 10))
            (sortedBuilders (mkState field d 1) builders)).
  - rewrite <- pages_concat. reflexivity.
  - apply firstn_all2.
    unfold BuilderLeaderboard.sortedBuilders. rewrite sort_length.
    Z.to_euclidean_division_equations. lia.
Qed.

(** X18.  On every page from 1 to the last the text "Showing [from] to
    [to]" agrees with the rows: the page has [to - from + 1] rows, its
    first row carries the rank [from] and its last row the rank [to]. *)
Theorem showing_range_matches_rows (st : State) (builders : list BuilderRevenue) :
  (1 <= currentPage st <= totalPages st builders)%Z ->
  Z.of_nat (length (paginatedBuilders st builders))
  = (showingTo st builders - showingFrom st + 1)%Z /\
  rank st 0 = showingFrom st /\
  rank st (Z.of_nat (length (paginatedBuilders st builders)) - 1)
  = showingTo st builders.
Proof.
  intros H. rewrite totalPages_formula in H.
  rewrite page_length by lia.
  unfold showingTo, showingFrom, rank, itemsPerPage.
  revert H. generalize (currentPage st). intros c H.
  repeat split; Z.to_euclidean_division_equations; lia.
Qed.

End Pagination.

Lemma showing_range_matches_rows_witness :
  let st := mkState F_totalRevenue desc 3 in
  Z.of_nat (length (paginatedBuilders Samples.codeUnitCompare Samples.sampleRanks
                      st Samples.twentyFive))
  = (showingTo st Samples.twentyFive - showingFrom st + 1)%Z /\
  rank st 0 = showingFrom st /\
  rank st (Z.of_nat (length (paginatedBuilders Samples.codeUnitCompare
                               Samples.sampleRanks st Samples.twentyFive)) - 1)
  = showingTo st Samples.twentyFive.
Proof.
  apply (showing_range_matches_rows Samples.codeUnitCompare Samples.sampleRanks
           (mkState F_totalRevenue desc 3) Samples.twentyFive).
  vm_compute. split; discriminate.
Defined.

(** ** Toggling the direction *)

Section Reversal.
Context {A : Type}.
Variable R : A -> A -> Prop.

Lemma StronglySorted_snoc (S : A -> A -> Prop) (l : list A) (x : A) :
  StronglySorted S l -> Forall (fun y => S y x) l ->
  StronglySorted S (l ++ [x]).
Proof.
  induction 1 as [| y l Hs IH Hy]; intros Hx; cbn.
  - constructor; constructor.
  - apply Forall_cons_iff in Hx as [Hyx Hx].
    constructor; [now apply IH |].
    apply Forall_app. split; [exact Hy | now constructor].
Qed.

Lemma StronglySorted_rev (l : list A) :
  StronglySorted R l -> StronglySorted (fun a b => R b a) (rev l).
Proof.
  induction 1 as [| x l Hs IH Hx]; cbn; [constructor |].
  apply StronglySorted_snoc; [exact IH |].
  apply Forall_forall. intros y Hy. apply in_rev in Hy.
  rewrite Forall_forall in Hx. now apply Hx.
Qed.

(** Where the order has no ties there is one sorted arrangement. *)
Lemma sorted_perm_unique (l1 : list A) :
  forall l2,
    (forall a b, In a l1 -> In b l1 -> R a b -> R b a -> a = b) ->
    StronglySorted R l1 -> StronglySorted R l2 -> Permutation l1 l2 ->
    l1 = l2.
Proof.
  induction l1 as [| x t1 IH]; intros l2 Hanti H1 H2 Hp.
  - apply Permutation_nil in Hp. now subst.
  - destruct l2 as [| y t2].
    + apply Permutation_sym, Permutation_nil in Hp. discriminate.
    + apply StronglySorted_inv in H1 as [H1 Hx].
      apply StronglySorted_inv in H2 as [H2 Hy].
      rewrite Forall_forall in Hx, Hy.
      assert (Exy : x = y).
      { assert (Hxin : In x (y :: t2))
          by (apply (Permutation_in _ Hp); now left).
        assert (Hyin : In y (x :: t1))
          by (apply (Permutation_in _ (Permutation_sym Hp)); now left).
        destruct Hxin as [-> | Hxin]; [reflexivity |].
        destruct Hyin as [-> | Hyin]; [reflexivity |].
        apply Hanti; [now left | now right | now apply Hx | now apply Hy]. }
      subst y. f_equal. apply IH; try assumption.
      * intros a b Ha Hb. apply Hanti; now right.
      * now apply Permutation_cons_inv in Hp.
Qed.
End Reversal.

Section Toggle.
Variable localeCompare : string -> string -> Z.
Variable auraRanks : string -> option RankEntry.

Local Abbreviation sortedBuilders := (sortedBuilders localeCompare auraRanks).

Lemma revenue_sort_ordered (d : SortDirection) (page : Z)
    (builders : list BuilderRevenue) :
  StronglySorted
    (fun a b => match d with
                | asc => totalRevenue a <= totalRevenue b
                | desc => totalRevenue b <= totalRevenue a
                end)
    (sortedBuilders (mkState F_totalRevenue d page) builders).
Proof.
  destruct d.
  - apply (keyed_sort_sorted (fun b => totalRevenue b)).
    intros a b. apply (builderBefore_revenue _ _ asc).
  - apply StronglySorted_weaken
      with (R1 := fun a b => - totalRevenue a <= - totalRevenue b);
      [intros a b H; lra |].
    apply (keyed_sort_sorted (fun b => - totalRevenue b)).
    intros a b. rewrite (builderBefore_revenue _ _ desc). split; intros H; lra.
Qed.

(** X19.  When no two builders have the same total revenue, sorting by
    revenue descending gives the reverse of sorting ascending, so a
    second click on the header turns the table upside down; both sorts
    start from the list as it was passed in. *)
Theorem toggle_reverses_without_ties (page page' : Z)
    (builders : list BuilderRevenue) :
  (forall a b, In a builders -> In b builders ->
               totalRevenue a == totalRevenue b -> a = b) ->
  sortedBuilders (mkState F_totalRevenue desc page) builders
  = rev (sortedBuilders (mkState F_totalRevenue asc page') builders).
Proof.
  intros Hdistinct.
  apply sorted_perm_unique
    with (R := fun a b => totalRevenue b <= totalRevenue a).
  - intros a b Ha Hb Hab Hba.
    apply Hdistinct.
    + exact (Permutation_in _ (sort_perm _ builders) Ha).
    + exact (Permutation_in _ (sort_perm _ builders) Hb).
    + now apply Qle_antisym.
  - apply (revenue_sort_ordered desc).
  - apply StronglySorted_rev. apply (revenue_sort_ordered asc).
  - eapply perm_trans; [apply sort_perm |].
    eapply perm_trans; [| apply Permutation_rev].
    apply Permutation_sym, sort_perm.
Qed.

End Toggle.

Lemma toggle_reverses_without_ties_witness :
  sortedBuilders Samples.codeUnitCompare Samples.sampleRanks
    (mkState F_totalRevenue desc 1) [Samples.lowEarner; Samples.highEarner]
  = rev (sortedBuilders Samples.codeUnitCompare Samples.sampleRanks
           (mkState F_totalRevenue asc 1)
           [Samples.lowEarner; Samples.highEarner]).
Proof.
  apply (toggle_reverses_without_ties Samples.codeUnitCompare
           Samples.sampleRanks 1 1 [Samples.lowEarner; Samples.highEarner]).
  intros a b [<- | [<- | []]] [<- | [<- | []]] H;
    try reflexivity; vm_compute in H; discriminate.
Defined.

End LeaderboardProperties.

(* ================================================================== *)
(** * Further properties of the aura view *)
(* ================================================================== *)

Module AuraViewProperties.
Import JS SliceFacts InfrastructureComparison TierSpec.

Section Slices.
Context {A : Type}.

(** A slice to the end from a non-negative start, inside the array or
    not. *)
Lemma slice_rest (l : list A) (start : Z) :
  (0 <= start)%Z -> slice l start None = skipn (Z.to_nat start) l.
Proof.
  intros H. unfold slice. rewrite relativeIndex_nonneg by exact H.
  destruct (Z.le_gt_cases start (Z.of_nat (length l))) as [Hle | Hgt].
  - rewrite Z.min_l by exact Hle.
    apply firstn_all2. rewrite length_skipn. lia.
  - rewrite Z.min_r by lia.
    rewrite (skipn_all2 (n := Z.to_nat start)) by lia.
    rewrite skipn_all2 by lia. apply firstn_nil.
Qed.

Lemma slice_head (l : list A) (stop : Z) :
  (0 <= stop)%Z -> slice l 0 (Some stop) = firstn (Z.to_nat stop) l.
Proof.
  intros H. unfold slice. rewrite !relativeIndex_nonneg by lia.
  rewrite (Z.min_l 0) by lia. cbn [Z.to_nat skipn].
  destruct (Z.le_gt_cases stop (Z.of_nat (length l))) as [Hle | Hgt].
  - rewrite Z.min_l by exact Hle. f_equal. lia.
  - rewrite Z.min_r by lia. rewrite !firstn_all2 by lia. reflexivity.
Qed.
End Slices.

(** X20.  The podium and the remainder share out the ranking: the top
    three, or all of them when there are fewer, followed by the
    remainder are the ranked list. *)
Theorem podium_and_remainder (projectsWithAura : list ProjectWithAuraScore) :
  let view := renderAuraView projectsWithAura in
  topThree view ++ remaining view = projectsWithAura /\
  length (topThree view) = Nat.min 3 (length projectsWithAura) /\
  length (remaining view) = (length projectsWithAura - 3)%nat.
Proof.
  cbv zeta. unfold renderAuraView. cbn [topThree remaining].
  rewrite slice_head, slice_rest by lia.
  change (Z.to_nat 3) with 3%nat.
  rewrite firstn_skipn, length_firstn, length_skipn. now repeat split.
Qed.

Lemma remaining_tiers (projectsWithAura : list ProjectWithAuraScore) :
  let view := renderAuraView projectsWithAura in
  let n := Z.of_nat (length (remaining view)) in
  (2 <= n)%Z ->
  remaining view = skipn 3 projectsWithAura /\
  topTier view = firstn (Z.to_nat (tierSize n)) (remaining view) /\
  midTier view
  = firstn (Z.to_nat (n - 2 * tierSize n))
           (skipn (Z.to_nat (tierSize n)) (remaining view)) /\
  cursedTier view = skipn (Z.to_nat (n - tierSize n)) (remaining view).
Proof.
  cbv zeta. unfold renderAuraView.
  cbn [topTier midTier cursedTier remaining].
  set (rest := slice projectsWithAura 3 None).
  intros Hn.
  destruct (tierSize_bounds _ Hn) as [H1 H2].
  split; [apply slice_rest; lia |].
  clearbody rest.
  rewrite slice_head by lia.
  rewrite slice_rest by lia.
  rewrite LeaderboardProperties.slice_from by lia.
  split; [reflexivity |]. split; f_equal; lia.
Qed.

Lemma nth_error_firstn_Some {A : Type} (k i : nat) (l : list A) (x : A) :
  nth_error (firstn k l) i = Some x -> nth_error l i = Some x.
Proof.
  rewrite nth_error_firstn. destruct (i <? k)%nat; [trivial | discriminate].
Qed.

(** X21.  From two projects on after the podium, the top tier and the
    cursed tier have the same size, a fifth of the remainder rounded
    down and at least 1, the mid tier has the rest, and from five
    projects on the mid tier is at least as large as either. *)
Theorem tier_sizes (projectsWithAura : list ProjectWithAuraScore) :
  let view := renderAuraView projectsWithAura in
  let n := Z.of_nat (length (remaining view)) in
  (2 <= n)%Z ->
  Z.of_nat (length (topTier view)) = Z.max 1 (n / 5) /\
  Z.of_nat (length (cursedTier view)) = Z.max 1 (n / 5) /\
  Z.of_nat (length (midTier view)) = (n - 2 * Z.max 1 (n / 5))%Z /\
  ((5 <= n)%Z -> (length (topTier view) <= length (midTier view))%nat).
Proof.
  cbv zeta. intros Hn.
  destruct (remaining_tiers projectsWithAura Hn) as (_ & Et & Em & Ec).
  rewrite Et, Em, Ec.
  rewrite !length_firstn, !length_skipn.
  destruct (tierSize_bounds _ Hn) as [H1 H2].
  assert (Hf : tierSize (Z.of_nat (length (remaining (renderAuraView projectsWithAura))))
               = Z.max 1 (Z.of_nat (length (remaining (renderAuraView projectsWithAura))) / 5)).
  { rewrite tierSize_fifth. Z.to_euclidean_division_equations. lia. }
  rewrite Hf in *.
  revert Hn H1 H2.
  generalize (length (remaining (renderAuraView projectsWithAura))).
  intros m Hn H1 H2.
  repeat split; try intros H5; Z.to_euclidean_division_equations; lia.
Qed.

Lemma tier_sizes_witness :
  let view := renderAuraView Samples.sevenRanked in
  let n := Z.of_nat (length (remaining view)) in
  (2 <= n)%Z /\
  Z.of_nat (length (topTier view)) = Z.max 1 (n / 5) /\
  Z.of_nat (length (cursedTier view)) = Z.max 1 (n / 5) /\
  Z.of_nat (length (midTier view)) = (n - 2 * Z.max 1 (n / 5))%Z /\
  ((5 <= n)%Z -> (length (topTier view) <= length (midTier view))%nat).
Proof.
  cbv zeta.
  assert (Hn : (2 <= Z.of_nat (length (remaining (renderAuraView Samples.sevenRanked))))%Z)
    by (vm_compute; discriminate).
  split; [exact Hn |].
  exact (tier_sizes Samples.sevenRanked Hn).
Defined.

Lemma tiers_partition_witness :
  let view := renderAuraView Samples.sevenRanked in
  (2 <= length (remaining view))%nat /\
  topTier view ++ midTier view ++ cursedTier view = remaining view.
Proof.
  cbv zeta.
  assert (Hn : (2 <= length (remaining (renderAuraView Samples.sevenRanked)))%nat)
    by (vm_compute; lia).
  split; [exact Hn |].
  exact (tiers_partition Samples.sevenRanked Hn).
Defined.

(** X22.  From two projects on after the podium, the position printed
    beside a row of the top, mid or cursed tier is that project's
    1-based place in the ranking. *)
Theorem tier_positions_are_ranks (projectsWithAura : list ProjectWithAuraScore) :
  let view := renderAuraView projectsWithAura in
  (2 <= Z.of_nat (length (remaining view)))%Z ->
  (forall i p,
     nth_error (topTier view) i = Some p ->
     nth_error projectsWithAura
               (Z.to_nat (topTierPosition (Z.of_nat i) - 1)) = Some p) /\
  (forall i p,
     nth_error (midTier view) i = Some p ->
     nth_error projectsWithAura
               (Z.to_nat (midTierPosition view (Z.of_nat i) - 1)) = Some p) /\
  (forall i p,
     nth_error (cursedTier view) i = Some p ->
     nth_error projectsWithAura
               (Z.to_nat (cursedTierPosition view (Z.of_nat i) - 1)) = Some p).
Proof.
  cbv zeta. intros Hn.
  destruct (remaining_tiers projectsWithAura Hn) as (Er & Et & Em & Ec).
  destruct (tierSize_bounds _ Hn) as [H1 H2].
  unfold topTierPosition, midTierPosition, cursedTierPosition.
  rewrite Et, Em, Ec.
  rewrite !length_firstn, !length_skipn.
  revert Hn H1 H2 Er.
  generalize (remaining (renderAuraView projectsWithAura)).
  intros rest Hn H1 H2 ->.
  set (t := tierSize (Z.of_nat (length (skipn 3 projectsWithAura)))) in *.
  split; [| split]; intros i p Hi.
  - apply nth_error_firstn_Some in Hi. rewrite nth_error_skipn in Hi.
    rewrite <- Hi. f_equal. lia.
  - apply nth_error_firstn_Some in Hi. rewrite !nth_error_skipn in Hi.
    rewrite <- Hi. f_equal. lia.
  - rewrite !nth_error_skipn in Hi.
    rewrite <- Hi. f_equal. lia.
Qed.

Lemma tier_positions_are_ranks_witness :
  nth_error (midTier (renderAuraView Samples.sevenRanked)) 1
  = Some (mkScored Samples.ratio1e4 (Num (-1000))) /\
  midTierPosition (renderAuraView Samples.sevenRanked) 1 = 6%Z /\
  nth_error Samples.sevenRanked
            (Z.to_nat (midTierPosition (renderAuraView Samples.sevenRanked)
                         (Z.of_nat 1) - 1))
  = Some (mkScored Samples.ratio1e4 (Num (-1000))).
Proof.
  assert (Hn : (2 <= Z.of_nat (length (remaining (renderAuraView Samples.sevenRanked))))%Z)
    by (vm_compute; discriminate).
  split; [reflexivity |]. split; [reflexivity |].
  apply (proj1 (proj2 (tier_positions_are_ranks Samples.sevenRanked Hn))).
  reflexivity.
Defined.

End AuraViewProperties.

(* ================================================================== *)
(** * Properties of loading *)
(* ================================================================== *)

Module LoadProperties.
Import DashboardLoad.

Section Load.
Variable DashboardData : Type.

Local Abbreviation State := (State DashboardData).
Local Abbreviation fetchData := (fetchData DashboardData).
Local Abbreviation render := (render DashboardData).

(** X23.  The screen after a load is decided by that load alone, not by
    what was on screen before: the page with the fresh data when both
    requests succeed with bodies that parse, the "no data" message when
    the revenue body is [null], and in every other case the one error
    message, even when data of an earlier load is still in the state.
    It is never the spinner. *)
Theorem screen_after_load (revenue : Fetched DashboardData)
    (comparison : Fetched ComparisonData) (st : State) :
  render (fetchData revenue comparison st)
  = match revenue, comparison with
    | Responds true (Some (Some data)), Responds true (Some (Some _)) =>
        Page DashboardData data
    | Responds true (Some None), Responds true (Some (Some _)) =>
        ErrorScreen DashboardData "No data available"
    | _, _ =>
        ErrorScreen DashboardData "Failed to load data. Please try again."
    end.
Proof.
  destruct revenue as [| [] [[data |] |]];
    destruct comparison as [| [] [[cdata |] |]]; reflexivity.
Qed.

(** X24.  After a load the loading flag is off and the error is either
    cleared or the one message.  A load that ends in the error leaves
    the rank table as it was; a load that ends without it has stored
    the revenue body and the rank table computed from the projects of
    the comparison body. *)
Theorem load_updates_state (revenue : Fetched DashboardData)
    (comparison : Fetched ComparisonData) (st : State) :
  let st' := fetchData revenue comparison st in
  loading DashboardData st' = false /\
  (error DashboardData st' <> None ->
   error DashboardData st' = Some "Failed to load data. Please try again."%string /\
   auraRanks DashboardData st' = auraRanks DashboardData st) /\
  (error DashboardData st' = None ->
   exists data cdata,
     revenue = Responds true (Some data) /\
     comparison = Responds true (Some (Some cdata)) /\
     dashboardData DashboardData st' = data /\
     auraRanks DashboardData st' = Dashboard.auraRanks (projects cdata)).
Proof.
  cbv zeta.
  destruct revenue as [| [] [data |]];
    destruct comparison as [| [] [[cdata |] |]];
    cbn; (split; [reflexivity |]); split; intros H;
    try discriminate; try (now split); try congruence.
  exists data, cdata. now repeat split.
Qed.

End Load.

End LoadProperties.
